(** * go-updater: the version normaliser, the profile writer and the orchestrator

    A shallow embedding of [main.go].  Go strings are byte sequences, so a Go
    [string] is a [list ascii] here (an [ascii] is one 8-bit byte); the
    functions of the Go standard library that [main.go] calls are modelled
    in [GoStrings] and [GoOS], the functions of [main.go] itself keep their
    names. *)

From Stdlib Require Import List Ascii String ZArith Lia Bool.
From stdpp Require Import gmap strings.
Import ListNotations.

Open Scope string_scope.
Open Scope list_scope.

(** A Go string literal is written as a Rocq string literal and read as its
    bytes. *)
Coercion list_ascii_of_string : string >-> list.

Abbreviation gostring := (list ascii).

(* ===================================================================== *)
(** * Package [strings] (and the part of [unicode] it relies on)          *)
(* ===================================================================== *)

Module GoStrings.

Definition B (n : N) : ascii := ascii_of_N n.

(** The code points for which [unicode.IsSpace] holds, each given by its
    UTF-8 encoding: TAB, LF, VT, FF, CR, SPACE, U+0085, U+00A0, U+1680,
    U+2000..U+200A, U+2028, U+2029, U+202F, U+205F and U+3000. *)
Definition white_space : list gostring :=
  map (map B)
    [ [9]; [10]; [11]; [12]; [13]; [32];
      [194; 133]; [194; 160];
      [225; 154; 128];
      [226; 128; 128]; [226; 128; 129]; [226; 128; 130]; [226; 128; 131];
      [226; 128; 132]; [226; 128; 133]; [226; 128; 134]; [226; 128; 135];
      [226; 128; 136]; [226; 128; 137]; [226; 128; 138];
      [226; 128; 168]; [226; 128; 169]; [226; 128; 175];
      [226; 129; 159];
      [227; 128; 128] ]%N.

(** [strings.HasPrefix]. *)
Fixpoint HasPrefix (s prefix : gostring) {struct prefix} : bool :=
  match prefix, s with
  | [], _ => true
  | _ :: _, [] => false
  | p :: prefix', c :: s' => Ascii.eqb c p && HasPrefix s' prefix'
  end.

(** Width in bytes of the white-space rune that [utf8.DecodeRuneInString]
    finds at the head of [s], or 0 when the rune there is not white space.
    A white-space rune is decoded exactly when [s] starts with its
    encoding: the encodings above are well formed, and an ill-formed or
    other sequence decodes to a rune that is not white space. *)
Definition space_width (s : gostring) : nat :=
  match find (HasPrefix s) white_space with
  | Some enc => length enc
  | None => 0
  end.

(** The same for [utf8.DecodeLastRuneInString]; [r] is the string read
    from its last byte backwards. *)
Definition space_width_last (r : gostring) : nat :=
  match find (fun enc => HasPrefix r (rev enc)) white_space with
  | Some enc => length enc
  | None => 0
  end.

(** Drop white-space runes from the head while there are any.  [skip]
    counts the bytes of the current rune that are still to be dropped.
    Walking byte by byte agrees with Go's rune by rune walk: the bytes
    after the first of a well-formed rune are continuation bytes
    (0x80..0xBF), and no white-space encoding starts with one. *)
Fixpoint drop_spaces (width : gostring -> nat) (skip : nat) (s : gostring)
  : gostring :=
  match s with
  | [] => []
  | _ :: t =>
      match skip with
      | S k => drop_spaces width k t
      | O =>
          match width s with
          | S k => drop_spaces width k t
          | O => s
          end
      end
  end.

(** [strings.TrimLeftFunc(s, unicode.IsSpace)]. *)
Definition TrimLeftSpace (s : gostring) : gostring :=
  drop_spaces space_width 0 s.

(** [strings.TrimRightFunc(s, unicode.IsSpace)]. *)
Definition TrimRightSpace (s : gostring) : gostring :=
  rev (drop_spaces space_width_last 0 (rev s)).

(** [strings.TrimSpace]: leading white space is removed first, then
    trailing white space of what is left. *)
Definition TrimSpace (s : gostring) : gostring :=
  TrimRightSpace (TrimLeftSpace s).

(** The loop of [strings.FieldsFunc(s, unicode.IsSpace)].  [start] is the
    field being read ([None] between fields, Go's [start < 0]). *)
Fixpoint fields_loop (skip : nat) (start : option gostring) (s : gostring)
  : list gostring :=
  match s with
  | [] => match start with Some f => [f] | None => [] end
  | c :: t =>
      match skip with
      | S k => fields_loop k start t
      | O =>
          match space_width s with
          | S k =>
              match start with
              | Some f => f :: fields_loop k None t
              | None => fields_loop k None t
              end
          | O =>
              match start with
              | Some f => fields_loop 0 (Some (f ++ [c])) t
              | None => fields_loop 0 (Some [c]) t
              end
          end
      end
  end.

(** [strings.Fields]. *)
Definition Fields (s : gostring) : list gostring := fields_loop 0 None s.

(** [strings.Contains]. *)
Fixpoint Contains (s substr : gostring) : bool :=
  HasPrefix s substr ||
  match s with
  | [] => false
  | _ :: t => Contains t substr
  end.

(** [strings.SplitSeq(s, sep)] for a separator of one byte, as a list:
    the pieces between the separators, in order; always at least one. *)
Fixpoint split_loop (sep : ascii) (piece : gostring) (s : gostring)
  : list gostring :=
  match s with
  | [] => [piece]
  | c :: t =>
      if Ascii.eqb c sep then piece :: split_loop sep [] t
      else split_loop sep (piece ++ [c]) t
  end.

Definition SplitSeq (s : gostring) (sep : ascii) : list gostring :=
  split_loop sep [] s.

(** [s == ""], [a == b]. *)
Definition is_empty (s : gostring) : bool :=
  match s with [] => true | _ :: _ => false end.

Definition eqb (a b : gostring) : bool := bool_decide (a = b).

End GoStrings.

Import GoStrings.

(* ===================================================================== *)
(** * Errors                                                              *)
(* ===================================================================== *)

(** Go's [error] values, one constructor per place that makes one. *)
Inductive error : Type :=
  | ErrSys (op path : gostring)            (* a failure reported by package os *)
  | ErrNet (url : gostring)                (* a failure of the HTTP client *)
  | ErrExec (argv : list gostring)         (* a command that failed to run or exited non-zero *)
  | ErrUnexpectedStatus (status : Z) (url : gostring)
  | ErrInvalidVersion (ver : gostring)
  | ErrUnsupportedOS (goos : gostring)
  | ErrUnsupportedArch (goarch : gostring)
  | ErrDownloadFailed (url : gostring) (status : Z)
  | ErrRequiresRoot
  | ErrNoInstalledGo
  | ErrUnableToParse (output : gostring)
  | ErrWrap (msg : gostring) (inner : error).

(* ===================================================================== *)
(** * VersionNormalizer: [cleanVersionInput] and [parseGoVersionOutput]   *)
(* ===================================================================== *)

(** [(c >= '0' && c <= '9') || (c >= 'a' && c <= 'z') || c == '.'] *)
Definition allowed (charByte : ascii) : bool :=
  ((("0" <=? charByte) && (charByte <=? "9"))
   || (("a" <=? charByte) && (charByte <=? "z"))
   || (charByte =? "."))%char.

(** The [for idx := range bytesVersion] loop: [out] grows by [append], the
    loop stops ([break]) at the first byte after index 1 that is not
    allowed. *)
Fixpoint clean_loop (idx : nat) (out : gostring) (bytesVersion : gostring)
  : gostring :=
  match bytesVersion with
  | [] => out
  | charByte :: rest =>
      if (idx <? 2)%nat then clean_loop (S idx) (out ++ [charByte]) rest
      else if allowed charByte then clean_loop (S idx) (out ++ [charByte]) rest
      else out
  end.

Definition cleanVersionInput (versionInput : gostring) : gostring :=
  let versionInput := TrimSpace versionInput in
  if is_empty versionInput then versionInput
  else
    let fields := Fields versionInput in
    let versionInput :=
      match fields with
      | f0 :: _ => f0
      | [] => versionInput
      end in
    let versionInput :=
      if HasPrefix versionInput "go" then versionInput
      else "go" ++ versionInput in
    clean_loop 0 [] versionInput.

(** The fallback loop of [parseGoVersionOutput]. *)
Fixpoint scan_tokens (output : gostring) (fields : list gostring)
  : gostring + error :=
  match fields with
  | [] => inr (ErrUnableToParse output)
  | token :: rest =>
      if HasPrefix token "go" then
        let versionToken := cleanVersionInput token in
        if HasPrefix versionToken "go" && (2 <? length versionToken)%nat
        then inl versionToken
        else scan_tokens output rest
      else scan_tokens output rest
  end.

Definition parseGoVersionOutput (output : gostring) : gostring + error :=
  let fields := Fields (TrimSpace output) in
  if (3 <=? length fields)%nat && HasPrefix (nth 2 fields []) "go"
  then inl (cleanVersionInput (nth 2 fields []))
  else scan_tokens output fields.

(** ** The normaliser as the specification words it *)

(** The bytes of [s] before its first white-space rune: the first
    white-space separated token of a string that starts with none. *)
Fixpoint first_token (s : gostring) : gostring :=
  match s with
  | [] => []
  | c :: t =>
      match space_width s with
      | S _ => []
      | O => c :: first_token t
      end
  end.

(** The longest prefix of allowed bytes. *)
Fixpoint keep_allowed (s : gostring) : gostring :=
  match s with
  | [] => []
  | c :: t => if allowed c then c :: keep_allowed t else []
  end.

Definition normalize_spec (input : gostring) : gostring :=
  let trimmed := TrimSpace input in
  match trimmed with
  | [] => trimmed
  | _ :: _ =>
      let token := first_token trimmed in
      let token := if HasPrefix token "go" then token else "go" ++ token in
      firstn 2 token ++ keep_allowed (skipn 2 token)
  end.

(** A well-formed version token: the prefix, then allowed bytes only. *)
Definition well_formed_token (v : gostring) : Prop :=
  exists rest : gostring, v = "go" ++ rest /\ Forall (fun c => allowed c = true) rest.

(** [parseGoVersionOutput] as the specification words it: the third field
    when it begins with the prefix, else the first field that does. *)
Definition parse_spec (output : gostring) : option gostring :=
  let fields := Fields (TrimSpace output) in
  match nth_error fields 2 with
  | Some third =>
      if HasPrefix third "go" then Some (cleanVersionInput third)
      else option_map cleanVersionInput (find (fun f => HasPrefix f "go") fields)
  | None => option_map cleanVersionInput (find (fun f => HasPrefix f "go") fields)
  end.

(** What the fallback scan selects: a field that begins with the prefix and
    whose normal form is longer than the prefix alone. *)
Definition usable_token (f : gostring) : bool :=
  HasPrefix f "go" && (2 <? length (cleanVersionInput f))%nat.

Definition parse_by_design (output : gostring) : option gostring :=
  let fields := Fields (TrimSpace output) in
  match nth_error fields 2 with
  | Some third =>
      if HasPrefix third "go" then Some (cleanVersionInput third)
      else option_map cleanVersionInput (find usable_token fields)
  | None => option_map cleanVersionInput (find usable_token fields)
  end.

Definition result_value {A} (r : A + error) : option A :=
  match r with inl a => Some a | inr _ => None end.

(* ===================================================================== *)
(** * The process and its surroundings                                    *)
(* ===================================================================== *)

Definition nl : ascii := B 10.
Definition dquote : ascii := B 34.
Definition squote : ascii := B 39.

(** What is found at a path: a directory, or a regular file with its bytes
    and whether this process may read it and may open it for writing. *)
Inductive node : Type :=
  | Dir
  | File (content : gostring) (readable writable : bool).

(** What the process does that can be observed from outside, in order. *)
Inductive event : Type :=
  | Stdout (text : gostring)
  | StdoutErr (text : gostring) (err : error)  (* [text] followed by [err] printed with %v *)
  | Stderr (context : gostring) (err : error)  (* the line written by [must] *)
  | HttpGet (url : gostring)
  | Exec (argv : list gostring)
  | Setenv (key value : gostring).

(** The state a run changes: the file system (its entries under their
    cleaned path names), the PATH variable of the process and the events
    so far. *)
Record World : Type := mkWorld {
  fs : gmap gostring node;
  PATH : gostring;
  trace : list event
}.

(** What a run reads from its surroundings and does not change. *)
Record Env : Type := mkEnv {
  GOOS : gostring;                                  (* runtime.GOOS *)
  GOARCH : gostring;                                (* runtime.GOARCH *)
  UserHomeDir : gostring + error;                   (* os.UserHomeDir() *)
  TempDir : gostring;                               (* os.TempDir() *)
  Geteuid : Z;                                      (* os.Geteuid() *)
  LookPath : gostring -> option gostring;           (* exec.LookPath *)
  may_create : gostring -> bool;      (* may an entry be created at this path *)
  write_ok : gostring -> bool;        (* does a write to the file at this path complete *)
  temp_name : gostring -> option gostring;          (* the fresh path os.CreateTemp picks *)
  valid_url : gostring -> bool;                     (* does http.NewRequest accept it *)
  http_get : gostring -> (Z * gostring) + error;    (* status and body of a GET *)
  (** A command run for its output only (a version probe): output and
      success; it reads the file system and leaves it as it is. *)
  command_output : list gostring -> gmap gostring node -> gostring * bool;
  (** A command run for its effect: the file system after it and success. *)
  command_effect : list gostring -> gmap gostring node -> gmap gostring node * bool
}.

(** A computation of the process: it returns a value, or the process ends
    with an exit code ([os.Exit], or [main] returning: code 0). *)
Definition Proc (A : Type) : Type := World -> (A + nat) * World.

#[global] Instance proc_ret : MRet Proc := fun A a w => (inl a, w).

#[global] Instance proc_bind : MBind Proc := fun A B k c w =>
  match c w with
  | (inl a, w') => k a w'
  | (inr code, w') => (inr code, w')
  end.

Definition emit (e : event) : Proc unit :=
  fun w => (inl tt, mkWorld (fs w) (PATH w) (trace w ++ [e])).

Definition get_fs : Proc (gmap gostring node) := fun w => (inl (fs w), w).

Definition set_fs (f : gmap gostring node) : Proc unit :=
  fun w => (inl tt, mkWorld f (PATH w) (trace w)).

Definition exit {A} (code : nat) : Proc A := fun w => (inr code, w).

(** ** Package [os] and [path/filepath] *)

Module GoOS.

(** [strings.Join(elems, "/")]. *)
Fixpoint join_elems (elems : list gostring) : gostring :=
  match elems with
  | [] => []
  | [e] => e
  | e :: rest => e ++ "/" ++ join_elems rest
  end.

(** One step of [filepath.Clean], at the path element [elem]; [kept] holds
    the elements written so far, the last one first. *)
Definition clean_elem (rooted : bool) (kept : list gostring) (elem : gostring)
  : list gostring :=
  if is_empty elem || eqb elem "." then kept        (* empty element, . element *)
  else if eqb elem ".." then
    match kept with
    | top :: rest =>
        if eqb top ".." then elem :: kept            (* cannot backtrack *)
        else rest                                    (* can backtrack *)
    | [] => if rooted then [] else [elem]
    end
  else elem :: kept.                                 (* real path element *)

Definition clean_elems (path : gostring) : list gostring :=
  fold_left (clean_elem (HasPrefix path "/")) (SplitSeq path "/") [].

(** The path made of the elements [kept]; the empty relative path is ".". *)
Definition render (rooted : bool) (kept : list gostring) : gostring :=
  let body := join_elems (rev kept) in
  if rooted then "/" ++ body
  else if is_empty body then "." else body.

(** [filepath.Clean]: no empty element, no . element, no inner .. element
    and none at the start of a rooted path, no slash at the end except for
    the root. *)
Definition Clean (path : gostring) : gostring :=
  render (HasPrefix path "/") (clean_elems path).

(** [filepath.Join(dir, name)]: empty elements are ignored, the others are
    joined by the separator and the result is cleaned. *)
Definition Join (dir name : gostring) : gostring :=
  if negb (is_empty dir) then Clean (dir ++ "/" ++ name)
  else if negb (is_empty name) then Clean name
  else [].

Definition ReadFile (path : gostring) : Proc (gostring + error) :=
  f ← get_fs;
  mret (match f !! path with
        | Some (File data true _) => inl data
        | _ => inr (ErrSys "open" path)
        end).

Definition Stat (path : gostring) : Proc (node + error) :=
  f ← get_fs;
  mret (match f !! path with
        | Some n => inl n
        | None => inr (ErrSys "stat" path)
        end).

(** [os.OpenFile(path, os.O_APPEND|os.O_WRONLY [|os.O_CREATE], perm)]. *)
Definition OpenFile (env : Env) (create : bool) (path : gostring)
  : Proc (option error) :=
  f ← get_fs;
  match f !! path with
  | Some (File _ _ true) => mret None
  | Some _ => mret (Some (ErrSys "open" path))
  | None =>
      if create && may_create env path
      then set_fs (<[path := File [] true true]> f);; mret None
      else mret (Some (ErrSys "open" path))
  end.

(** Write [data] at the end of the open file at [path].  A write that
    fails leaves the file as it was. *)
Definition Write (env : Env) (path data : gostring) : Proc (option error) :=
  f ← get_fs;
  match f !! path with
  | Some (File content r w) =>
      if write_ok env path
      then set_fs (<[path := File (content ++ data) r w]> f);; mret None
      else mret (Some (ErrSys "write" path))
  | _ => mret (Some (ErrSys "write" path))
  end.

(** [os.Create]: the file is created, or truncated when it exists. *)
Definition Create (env : Env) (path : gostring) : Proc (option error) :=
  f ← get_fs;
  match f !! path with
  | Some (File _ r true) => set_fs (<[path := File [] r true]> f);; mret None
  | Some _ => mret (Some (ErrSys "open" path))
  | None =>
      if may_create env path
      then set_fs (<[path := File [] true true]> f);; mret None
      else mret (Some (ErrSys "open" path))
  end.

(** [os.CreateTemp("", pattern)]: a new empty file. *)
Definition CreateTemp (env : Env) (pattern : gostring)
  : Proc (gostring + error) :=
  match temp_name env pattern with
  | Some path =>
      f ← get_fs; set_fs (<[path := File [] true true]> f);; mret (inl path)
  | None => mret (inr (ErrSys "createtemp" pattern))
  end.

(** [os.Remove] of a file this process created; its error is ignored by
    every caller. *)
Definition Remove (path : gostring) : Proc unit :=
  f ← get_fs; set_fs (delete path f).

(** The directories [os.MkdirAll] looks at: the directory and its
    parents, the nearest first, each under the name [filepath.Clean] gives
    it (the model has no symbolic links).  The root, the current directory
    and the directories above it always exist and are left out. *)
Fixpoint dir_chain (rooted : bool) (kept : list gostring) : list gostring :=
  match kept with
  | [] => []
  | top :: rest =>
      if eqb top ".." then []
      else render rooted kept :: dir_chain rooted rest
  end.

Definition mkdir_chain (path : gostring) : list gostring :=
  dir_chain (HasPrefix path "/") (clean_elems path).

(** The recursion of [os.MkdirAll]: nothing to do for a directory, an
    error for a file; else the parent is made in the same way, then the
    directory itself, and a directory found there after all is no error.
    What was created before a failure stays. *)
Fixpoint mkdir_all (env : Env) (dirs : list gostring) : Proc (option error) :=
  match dirs with
  | [] => mret None
  | path :: parents =>
      f ← get_fs;
      match f !! path with
      | Some Dir => mret None
      | Some (File _ _ _) => mret (Some (ErrSys "mkdir" path))
      | None =>
          r ← mkdir_all env parents;
          match r with
          | Some err => mret (Some err)
          | None =>
              (* Parent now exists; invoke Mkdir and use its result. *)
              f ← get_fs;
              match f !! path with
              | Some Dir => mret None
              | Some (File _ _ _) => mret (Some (ErrSys "mkdir" path))
              | None =>
                  if may_create env path
                  then set_fs (<[path := Dir]> f);; mret None
                  else mret (Some (ErrSys "mkdir" path))
              end
          end
      end
  end.

(** [os.MkdirAll]: the directory is created along with any necessary
    parents; the empty path is an error. *)
Definition MkdirAll (env : Env) (path : gostring) : Proc (option error) :=
  if is_empty path then mret (Some (ErrSys "mkdir" path))
  else mkdir_all env (mkdir_chain path).

(** A command run for its effect, with the terminal attached. *)
Definition Run (env : Env) (argv : list gostring) : Proc (option error) :=
  f ← get_fs;
  emit (Exec argv);;
  let '(f', ok) := command_effect env argv f in
  set_fs f';;
  mret (if ok then None else Some (ErrExec argv)).

(** [exec.Command(...).CombinedOutput()]. *)
Definition CombinedOutput (env : Env) (argv : list gostring)
  : Proc (gostring * option error) :=
  f ← get_fs;
  emit (Exec argv);;
  let '(out, ok) := command_output env argv f in
  mret (out, if ok then None else Some (ErrExec argv)).

End GoOS.

Import GoOS.

(* ===================================================================== *)
(** * [main.go]                                                           *)
(* ===================================================================== *)

Definition log (msg : gostring) : Proc unit :=
  emit (Stdout ("[go-updater] " ++ msg ++ [nl])).

Definition warn (msg : gostring) : Proc unit :=
  emit (Stdout ("[go-updater][WARN] " ++ msg ++ [nl])).

Definition warn_err (msg : gostring) (err : error) : Proc unit :=
  emit (StdoutErr ("[go-updater][WARN] " ++ msg) err).

Definition must (err : option error) (context : gostring) : Proc unit :=
  match err with
  | None => mret tt
  | Some e => emit (Stderr context e);; exit 1
  end.

(** [v, err := f(); must(err, context)]. *)
Definition must_value {A} (r : A + error) (context : gostring) : Proc A :=
  match r with
  | inl a => mret a
  | inr e => emit (Stderr context e);; exit 1
  end.

Definition isRoot (env : Env) : bool := (Geteuid env =? 0)%Z.

Definition runAsRoot (env : Env) (cmd : gostring) (args : list gostring)
  : Proc (option error) :=
  if isRoot env then Run env (cmd :: args)
  else
    match LookPath env "sudo" with
    | None => mret (Some ErrRequiresRoot)
    | Some _ =>
        Run env ["sudo" : gostring; "-v" : gostring];;
        Run env (("sudo" : gostring) :: cmd :: args)
    end.

(** ** ProfileLineWriter *)

Definition install_dir : gostring := "/usr/local/go/bin".
Definition export_keyword : gostring := "export PATH".

(** The [for line := range strings.SplitSeq(content, "\n")] loop. *)
Fixpoint profile_loop (target : gostring) (lines : list gostring) : bool :=
  match lines with
  | [] => false
  | line :: rest =>
      let line := TrimSpace line in
      if eqb line target then true
      else if Contains line install_dir && Contains line export_keyword then true
      else profile_loop target rest
  end.

Definition containsProfileLine (content target : gostring) : bool :=
  profile_loop target (SplitSeq content nl).

Definition profile_line : gostring := "export PATH=$PATH:/usr/local/go/bin".

(** The three [fmt.Fprintln] calls into the buffered writer. *)
Definition profile_block (line : gostring) : gostring :=
  [nl] ++ "# Added by go-updater to expose Go binaries" ++ [nl] ++ line ++ [nl].

Definition profile_candidates (env : Env) : list gostring :=
  if eqb (GOOS env) "darwin"
  then [".zprofile" : gostring; ".zshrc" : gostring;
        ".bash_profile" : gostring; ".profile" : gostring]
  else [".profile" : gostring].

(** First loop: the first candidate that can be read and has the line. *)
Fixpoint scan_profiles (home line : gostring) (candidates : list gostring)
  : Proc (option gostring) :=
  match candidates with
  | [] => mret None
  | name :: rest =>
      let path := Join home name in
      r ← ReadFile path;
      match r with
      | inl data =>
          if containsProfileLine data line then mret (Some path)
          else scan_profiles home line rest
      | inr _ => scan_profiles home line rest
      end
  end.

(** Second loop: the first candidate for which [os.Stat] succeeds. *)
Fixpoint first_existing (home : gostring) (candidates : list gostring)
  : Proc (option gostring) :=
  match candidates with
  | [] => mret None
  | name :: rest =>
      let path := Join home name in
      r ← Stat path;
      match r with
      | inl _ => mret (Some path)
      | inr _ => first_existing home rest
      end
  end.

(** The writer, the three lines and [Flush] on the file opened at [path]. *)
Definition append_block (env : Env) (path line : gostring)
  : Proc (option error) :=
  r ← Write env path (profile_block line);
  match r with
  | Some err => mret (Some err)
  | None => log ("Added PATH update to " ++ path);; mret None
  end.

Definition ensureUserPath (env : Env) : Proc (option error) :=
  match UserHomeDir env with
  | inr err => mret (Some err)
  | inl home =>
      let line := profile_line in
      let candidates := profile_candidates env in
      found ← scan_profiles home line candidates;
      match found with
      | Some path =>
          log ("User PATH already contains /usr/local/go/bin in " ++ path);;
          mret None
      | None =>
          existing ← first_existing home candidates;
          match existing with
          | Some path =>
              r ← OpenFile env false path;
              match r with
              | Some err => mret (Some err)
              | None => append_block env path line
              end
          | None =>
              let target := Join home (hd [] candidates) in
              r ← OpenFile env true target;
              match r with
              | Some err => mret (Some err)
              | None => append_block env target line
              end
          end
      end
  end.

(** ** SystemPathInstaller *)

(** [strings.ReplaceAll(s, "'", "'\\''")]. *)
Definition escape_quotes (s : gostring) : gostring :=
  flat_map (fun c => if Ascii.eqb c squote
                     then [squote; B 92; squote; squote] else [c]) s.

Definition export_quoted : gostring :=
  "export PATH=" ++ [dquote] ++ "$PATH:/usr/local/go/bin" ++ [dquote] ++ [nl].

Definition ensureSystemPath (env : Env) : Proc (option error) :=
  if eqb (GOOS env) "darwin" then
    (* Prefer /etc/paths.d on macOS *)
    let content := "/usr/local/go/bin" ++ [nl] in
    t ← CreateTemp env "golang-path-*.txt";
    match t with
    | inr err => mret (Some err)
    | inl tmpPath =>
        r ← Write env tmpPath content;
        match r with
        | Some err => mret (Some err)              (* tmp.Close(); return err *)
        | None =>
            (* Try /etc/paths.d first *)
            r ← runAsRoot env "install"
                  ["-m" : gostring; "0644" : gostring; tmpPath;
                   "/etc/paths.d/go" : gostring];
            match r with
            | None =>
                Remove tmpPath;;
                log "Added system PATH at /etc/paths.d/go";;
                mret None
            | Some _ =>
                (* Fallback: append to /etc/zprofile *)
                let cmd := "printf '" ++ escape_quotes export_quoted
                           ++ "' >> /etc/zprofile" in
                r ← runAsRoot env "sh" ["-c" : gostring; cmd];
                match r with
                | Some err =>
                    Remove tmpPath;;
                    mret (Some (ErrWrap
                      "failed to update /etc/paths.d or /etc/zprofile" err))
                | None =>
                    Remove tmpPath;;
                    log "Appended system PATH to /etc/zprofile";;
                    mret None
                end
            end
        end
    end
  else
    (* Linux and others: use /etc/profile.d *)
    let content :=
      "# /etc/profile.d/golang-path.sh" ++ [nl] ++ "# Added by go-updater"
      ++ [nl] ++ export_quoted in
    t ← CreateTemp env "golang-path-*.sh";
    match t with
    | inr err => mret (Some err)
    | inl tmpPath =>
        r ← Write env tmpPath content;
        match r with
        | Some err => mret (Some err)              (* tmp.Close(); return err *)
        | None =>
            (* Try /etc/profile.d first *)
            r ← runAsRoot env "install"
                  ["-m" : gostring; "0644" : gostring; tmpPath;
                   "/etc/profile.d/golang-path.sh" : gostring];
            match r with
            | None =>
                Remove tmpPath;;
                log "Added system PATH at /etc/profile.d/golang-path.sh";;
                mret None
            | Some _ =>
                (* Fallback: append to /etc/profile *)
                let cmd := "printf '" ++ escape_quotes content
                           ++ "' >> /etc/profile" in
                r ← runAsRoot env "sh" ["-c" : gostring; cmd];
                match r with
                | Some err =>
                    Remove tmpPath;;
                    mret (Some (ErrWrap
                      "failed to update /etc/profile.d or /etc/profile" err))
                | None =>
                    Remove tmpPath;;
                    log "Appended system PATH to /etc/profile";;
                    mret None
                end
            end
        end
    end.

(** ** Orchestrator *)

Definition resolveTarget (env : Env) : (gostring * gostring) + error :=
  let goos := GOOS env in
  let goarch := GOARCH env in
  if eqb goos "linux" || eqb goos "darwin" then
    (* Map any special arch values to Go download naming if needed *)
    if eqb goarch "amd64" || eqb goarch "arm64" || eqb goarch "386"
    then inl (goos, goarch)
    else if eqb goarch "x86_64" then inl (goos, "amd64" : gostring)
    else if eqb goarch "aarch64" then inl (goos, "arm64" : gostring)
    else inr (ErrUnsupportedArch goarch)
  else inr (ErrUnsupportedOS goos).

Definition vURL : gostring := "https://go.dev/VERSION?m=text".

(** [bufio.Reader.ReadString(delim)]: the bytes up to and including the
    first [delim], or all of them when there is none. *)
Fixpoint ReadString (delim : ascii) (s : gostring) : gostring :=
  match s with
  | [] => []
  | c :: t => if Ascii.eqb c delim then [c] else c :: ReadString delim t
  end.

Definition fetchLatestVersion (env : Env) : Proc (gostring + error) :=
  emit (HttpGet vURL);;
  match http_get env vURL with
  | inr err => mret (inr err)
  | inl (status, body) =>
      if negb (status =? 200)%Z
      then mret (inr (ErrUnexpectedStatus status vURL))
      else
        (* Only the first line of at most 1024 bytes of the body is read. *)
        let line := ReadString nl (firstn 1024 body) in
        let ver := TrimSpace line in
        if is_empty ver || negb (HasPrefix ver "go")
        then mret (inr (ErrInvalidVersion ver))
        else mret (inl ver)
  end.

Definition downloadFile (env : Env) (url toPath : gostring)
  : Proc (option error) :=
  r ← Create env toPath;
  match r with
  | Some err => mret (Some err)
  | None =>
      if negb (valid_url env url) then mret (Some (ErrNet url))
      else
        emit (HttpGet url);;
        match http_get env url with
        | inr err => mret (Some err)
        | inl (status, body) =>
            if negb (status =? 200)%Z
            then mret (Some (ErrDownloadFailed url status))
            else Write env toPath body                  (* io.Copy *)
        end
  end.

Definition stdGo : gostring := "/usr/local/go/bin/go".

(** Run [bin version] and parse what it prints; [Some v] when the command
    and the parse both succeed. *)
Definition probe (env : Env) (bin : gostring) : Proc (option gostring) :=
  r ← CombinedOutput env [bin; "version" : gostring];
  match r with
  | (out, None) =>
      match parseGoVersionOutput out with
      | inl v => mret (Some v)
      | inr _ => mret None
      end
  | (_, Some _) => mret None
  end.

Definition getInstalledGoVersion (env : Env) : Proc (gostring + error) :=
  (* Prefer the standard installation location first *)
  st ← Stat stdGo;
  first ← match st with
          | inl (File _ _ _) => probe env stdGo       (* !fi.IsDir() *)
          | _ => mret None
          end;
  match first with
  | Some v => mret (inl v)
  | None =>
      (* Fallback to whatever 'go' is on PATH *)
      match LookPath env "go" with
      | Some path =>
          second ← probe env path;
          match second with
          | Some v => mret (inl v)
          | None => mret (inr ErrNoInstalledGo)
          end
      | None => mret (inr ErrNoInstalledGo)
      end
  end.

Definition println (text : gostring) : Proc unit := emit (Stdout (text ++ [nl])).

Definition printPlan (version goos goarch url tarPath : gostring)
    (noPath system : bool) : Proc unit :=
  println "Plan (dry-run):";;
  println ("- Determine version: " ++ version);;
  println ("- Download " ++ url ++ " -> " ++ tarPath);;
  println "- Remove any previous /usr/local/go";;
  println "- Extract archive into /usr/local";;
  (if negb noPath then
     println "- Add '/usr/local/go/bin' to PATH in your shell profile (idempotent)";;
     if system then
       if eqb goos "darwin"
       then println "- Also add system-wide PATH via /etc/paths.d (requires sudo)"
       else println "- Also add system-wide PATH via /etc/profile.d (requires sudo)"
     else mret tt
   else println "- Skip PATH update (per --no-path-update)");;
  println "- Verify with '/usr/local/go/bin/go version'".

(** The command line. *)
Record Flags : Type := mkFlags {
  versionFlag : gostring;
  dryRunFlag : bool;
  noPathUpdate : bool;
  systemPathFlag : bool;
  downloadDirFlag : gostring
}.

(** What the first part of [main] settles. *)
Record Plan : Type := mkPlan {
  version : gostring;
  goos : gostring;
  goarch : gostring;
  url : gostring;
  tarPath : gostring
}.

(** Determine target version. *)
Definition main_version (env : Env) (flags : Flags) : Proc gostring :=
  if is_empty (TrimSpace (versionFlag flags))
  then r ← fetchLatestVersion env; must_value r "fetch latest version"
  else
    (* Sanitize and normalize a user-supplied version *)
    mret (cleanVersionInput (versionFlag flags)).

(** [main] up to the dry-run test: target version, up-to-date check,
    platform, download directory. *)
Definition main_plan (env : Env) (flags : Flags) : Proc Plan :=
  version ← main_version env flags;
  (* Up-to-date check *)
  installed ← getInstalledGoVersion env;
  if match installed with inl v => eqb v version | inr _ => false end
  then
    log ("Go is already up to date (" ++ version ++ "). Nothing to do.");;
    exit 0                                                     (* return *)
  else
    (* Build download URL based on runtime OS/Arch *)
    '(goos, goarch) ← must_value (resolveTarget env) "resolve target platform";
    let tarName := version ++ "." ++ goos ++ "-" ++ goarch ++ ".tar.gz" in
    let url := "https://go.dev/dl/" ++ tarName in
    (* Decide download dir *)
    let dlDir := if is_empty (downloadDirFlag flags)
                 then TempDir env else downloadDirFlag flags in
    r ← MkdirAll env dlDir; must r "create download dir";;
    let tarPath := Join dlDir tarName in
    log ("Target version: " ++ version);;
    log ("Platform: " ++ goos ++ "/" ++ goarch);;
    log ("Download: " ++ url ++ [nl] ++ "       to: " ++ tarPath);;
    mret (mkPlan version goos goarch url tarPath).

(** Download the archive if not already present. *)
Definition main_archive (env : Env) (p : Plan) : Proc unit :=
  st ← Stat (tarPath p);
  match st with
  | inl _ => log ("Using existing archive: " ++ tarPath p)
  | inr _ =>
      r ← downloadFile env (url p) (tarPath p); must r "download archive";;
      log ("Downloaded: " ++ tarPath p)
  end.

(** [os.Setenv("PATH", os.Getenv("PATH") + string(os.PathListSeparator) + dir)]. *)
Definition append_PATH (dir : gostring) : Proc unit :=
  fun w =>
    let value := PATH w ++ ":" ++ dir in
    (inl tt, mkWorld (fs w) value (trace w ++ [Setenv "PATH" value])).

(** Replace the installation, update PATH, verify. *)
Definition main_install (env : Env) (flags : Flags) (p : Plan) : Proc unit :=
  (* Remove any previous installation *)
  r ← runAsRoot env "rm" ["-rf" : gostring; "/usr/local/go" : gostring];
  must r "remove previous /usr/local/go";;
  (* Extract archive into /usr/local *)
  r ← runAsRoot env "tar"
        ["-C" : gostring; "/usr/local" : gostring; "-xzf" : gostring; tarPath p];
  must r "extract archive to /usr/local";;
  log "Extracted to /usr/local/go";;
  (* Ensure PATH contains /usr/local/go/bin *)
  (if negb (noPathUpdate flags) then
     r ← ensureUserPath env; must r "ensure user PATH in ~/.profile";;
     (if systemPathFlag flags then
        r ← ensureSystemPath env;
        match r with
        | Some err => warn_err "system-wide PATH update failed: " err
        | None => mret tt
        end
      else mret tt);;
     (* Make the current process aware for immediate verification *)
     append_PATH "/usr/local/go/bin"
   else mret tt);;
  (* Verify installation using an absolute path (PATH-independent) *)
  '(out, err) ← CombinedOutput env [stdGo; "version" : gostring];
  must err ("verify: running '/usr/local/go/bin/go version'" ++ [nl]
            ++ "Output: " ++ out);;
  emit (Stdout out);;
  (if negb (Contains out (version p)) then
     warn ("Installed Go reported '" ++ TrimSpace out
           ++ "' which does not contain expected version '" ++ version p ++ "'")
   else mret tt);;
  log ("Go " ++ version p ++ " installed successfully.");;
  log "Note: You may need to start a new shell session for PATH changes to take effect, or run: 'source ~/.profile' (Linux) or 'source ~/.zprofile' (macOS)".

Definition main (env : Env) (flags : Flags) : Proc unit :=
  p ← main_plan env flags;
  if dryRunFlag flags then
    printPlan (version p) (goos p) (goarch p) (url p) (tarPath p)
              (noPathUpdate flags) (systemPathFlag flags)
  else
    main_archive env p;;
    main_install env flags p.

(* ===================================================================== *)
(** * Notions used to state the properties                                *)
(* ===================================================================== *)

(** ** Strings *)

(** [c] is the first byte of no white-space encoding. *)
Definition first_byte_free (c : ascii) : bool :=
  forallb (fun enc : gostring =>
             match enc with [] => false | p :: _ => negb (Ascii.eqb c p) end)
          white_space.

(** [c] is the last byte of no white-space encoding. *)
Definition last_byte_free (c : ascii) : bool :=
  forallb (fun enc : gostring =>
             match rev enc with [] => false | p :: _ => negb (Ascii.eqb c p) end)
          white_space.

Definition all_allowed (s : gostring) : Prop :=
  Forall (fun c => allowed c = true) s.

(** [sub] occurs in [s]. *)
Definition is_substring (sub s : gostring) : Prop :=
  exists a b : gostring, s = a ++ sub ++ b.

Definition ends_piece (sep : ascii) (post : gostring) : Prop :=
  post = [] \/ exists q, post = sep :: q.

Definition starts_piece (sep : ascii) (pre : gostring) : Prop :=
  pre = [] \/ exists p, pre = p ++ [sep].

(** [l] is one of the pieces of [content] between separators: it holds no
    separator, starts at the beginning or just after a separator, and ends
    at the end or just before one. *)
Definition piece_of (sep : ascii) (content l : gostring) : Prop :=
  exists pre post : gostring,
    content = pre ++ l ++ post /\ ~ In sep l
    /\ starts_piece sep pre /\ ends_piece sep post.

(** A line of a file. *)
Definition line_of (content l : gostring) : Prop := piece_of nl content l.

(** ** The file-system effect of [ensureUserPath] *)

(** The candidate [name] can be read and holds the line. *)
Definition satisfied (home : gostring) (f : gmap gostring node)
    (name : gostring) : bool :=
  match f !! Join home name with
  | Some (File data true _) => containsProfileLine data profile_line
  | _ => false
  end.

(** [os.Stat] of the candidate [name] succeeds. *)
Definition present (home : gostring) (f : gmap gostring node)
    (name : gostring) : bool :=
  match f !! Join home name with Some _ => true | None => false end.

Definition append_effect (env : Env) (path : gostring)
    (f : gmap gostring node) : gmap gostring node :=
  match f !! path with
  | Some (File content r w) =>
      if write_ok env path
      then <[path := File (content ++ profile_block profile_line) r w]> f
      else f
  | _ => f
  end.

Definition open_effect (env : Env) (create : bool) (path : gostring)
    (f : gmap gostring node) : option (gmap gostring node) :=
  match f !! path with
  | Some (File _ _ true) => Some f
  | Some _ => None
  | None => if create && may_create env path
            then Some (<[path := File [] true true]> f) else None
  end.

Definition ensure_effect (env : Env) (f : gmap gostring node)
  : gmap gostring node :=
  match UserHomeDir env with
  | inr _ => f
  | inl home =>
      let candidates := profile_candidates env in
      match find (satisfied home f) candidates with
      | Some _ => f
      | None =>
          match find (present home f) candidates with
          | Some name =>
              match open_effect env false (Join home name) f with
              | Some f' => append_effect env (Join home name) f'
              | None => f
              end
          | None =>
              match open_effect env true (Join home (hd [] candidates)) f with
              | Some f' => append_effect env (Join home (hd [] candidates)) f'
              | None => f
              end
          end
      end
  end.

(** The candidate [name] is not a file that cannot be read. *)
Definition readable_at (home : gostring) (f : gmap gostring node)
    (name : gostring) : bool :=
  match f !! Join home name with
  | Some (File _ r _) => r
  | _ => true
  end.

Definition candidates_readableb (env : Env) (f : gmap gostring node) : bool :=
  match UserHomeDir env with
  | inl home => forallb (readable_at home f) (profile_candidates env)
  | inr _ => true
  end.

(** Every candidate profile that is a file can be read. *)
Definition candidates_readable (env : Env) (f : gmap gostring node) : Prop :=
  forall home name data r w,
    UserHomeDir env = inl home -> In name (profile_candidates env) ->
    f !! Join home name = Some (File data r w) -> r = true.

(** ** Runs of [main] *)

(** The world after more events. *)
Definition with_events (w : World) (evs : list event) : World :=
  mkWorld (fs w) (PATH w) (trace w ++ evs).

(** The URLs requested, in order. *)
Definition network_calls (t : list event) : list gostring :=
  flat_map (fun e => match e with HttpGet u => [u] | _ => [] end) t.

(** The run ends with the unsupported-platform error and has made no
    network call. *)
Definition fails_before_network (env : Env) (flags : Flags) (w : World) : Prop :=
  exists err t,
    resolveTarget env = inr err
    /\ (main env flags w).1 = inr 1
    /\ trace (main env flags w).2 = t ++ [Stderr "resolve target platform" err]
    /\ network_calls (trace (main env flags w).2) = network_calls (trace w).

(** The installed version is found and equals [version]. *)
Definition up_to_date (env : Env) (w : World) (version : gostring) : bool :=
  match (getInstalledGoVersion env w).1 with
  | inl (inl v) => eqb v version
  | _ => false
  end.

(** A computation that leaves the file system as it is. *)
Definition fs_unchanged {A} (c : Proc A) : Prop :=
  forall (w w' : World) (r : A + nat), c w = (r, w') -> fs w' = fs w.

(** The file system [f'] differs from [f] at most by directories among
    [dirs], at paths where [f] holds nothing. *)
Definition new_dirs (dirs : list gostring) (f f' : gmap gostring node) : Prop :=
  forall path,
    f' !! path = f !! path
    \/ (In path dirs /\ f !! path = None /\ f' !! path = Some Dir).

(** The file system [f'] differs from [f] at most by directories at paths
    where [f] holds nothing. *)
Definition only_new_directories (f f' : gmap gostring node) : Prop :=
  forall path,
    f' !! path = f !! path \/ (f !! path = None /\ f' !! path = Some Dir).

(** A computation whose only possible change to the file system is the
    creation of the directory [d] and of parents of it. *)
Definition at_most_mkdir {A} (d : gostring) (c : Proc A) : Prop :=
  forall (w w' : World) (r : A + nat),
    c w = (r, w') -> new_dirs (mkdir_chain d) (fs w) (fs w').

(** The path [d] names a directory of [f]: the root, the current directory
    or one above it, or an entry of [f] that is a directory. *)
Definition is_directory (f : gmap gostring node) (d : gostring) : Prop :=
  match mkdir_chain d with
  | [] => d <> []
  | dir :: _ => f !! dir = Some Dir
  end.

(** The download directory of a run. *)
Definition download_dir (env : Env) (flags : Flags) : gostring :=
  if is_empty (downloadDirFlag flags) then TempDir env else downloadDirFlag flags.

(** A computation that removes no entry of the file system and changes
    none. *)
Definition keeps_entries {A} (c : Proc A) : Prop :=
  forall (w w' : World) (r : A + nat),
    c w = (r, w') ->
    forall path n, fs w !! path = Some n -> fs w' !! path = Some n.

(** The pattern [ensureSystemPath] gives to [os.CreateTemp]. *)
Definition staging_pattern (env : Env) : gostring :=
  if eqb (GOOS env) "darwin" then "golang-path-*.txt" else "golang-path-*.sh".

(** ** Concrete surroundings *)

(** A machine with home directory /home/u, no Go and no sudo on PATH,
    where commands run for their effect succeed and change nothing. *)
Definition machine (goos goarch : gostring) (euid : Z) (disk_ok : bool)
    (response : (Z * gostring) + error) : Env := {|
  GOOS := goos;
  GOARCH := goarch;
  UserHomeDir := inl ("/home/u" : gostring);
  TempDir := "/tmp";
  Geteuid := euid;
  LookPath := fun _ => None;
  may_create := fun _ => true;
  write_ok := fun _ => disk_ok;
  temp_name := fun _ => Some ("/tmp/golang-path-1" : gostring);
  valid_url := fun _ => true;
  http_get := fun _ => response;
  command_output := fun _ _ => ([], false);
  command_effect := fun _ f => (f, true)
|}.

(** linux/amd64 as root; the server answers 404. *)
Definition env_linux : Env := machine "linux" "amd64" 0 true (inl (404%Z, [])).

(** linux/amd64 as an ordinary user. *)
Definition env_user : Env := machine "linux" "amd64" 1000 true (inl (404%Z, [])).

(** No write completes. *)
Definition env_disk_full (goos : gostring) : Env :=
  machine goos "amd64" 0 false (inl (404%Z, [])).

(** linux/riscv64, an architecture outside the allow-list; the server
    answers the version request. *)
Definition env_riscv : Env :=
  machine "linux" "riscv64" 0 true
    (inl (200%Z, "go1.26.0" ++ [nl] ++ "time 2026-02-10T01:22:00Z")).

Definition empty_world : World := mkWorld ∅ "/usr/bin" [].

(** ~/.profile exists, is empty, cannot be read and can be appended to
    (mode 0200). *)
Definition write_only_profile : World :=
  mkWorld {[ ("/home/u/.profile" : gostring) := File [] false true ]} "/usr/bin" [].

(** ~/.profile holds the export with the directories in the other order. *)
Definition alternate_profile : World :=
  mkWorld {[ ("/home/u/.profile" : gostring)
             := File "export PATH=/usr/local/go/bin:$PATH" true true ]} "/usr/bin" [].

Definition flags_latest : Flags := mkFlags "" false false false "".
Definition flags_pinned : Flags := mkFlags "go1.26.0" false false false "".
Definition flags_dry_run : Flags := mkFlags "go1.26.0" true false false "/tmp/fresh".

Definition archive_url : gostring := "https://go.dev/dl/go1.26.0.linux-amd64.tar.gz".
Definition archive_path : gostring := "/tmp/go1.26.0.linux-amd64.tar.gz".

(** ** Notions for the further properties *)

(** [c] occurs in the encoding of some white-space rune. *)
Definition space_byte (c : ascii) : bool :=
  existsb (fun enc : gostring => existsb (Ascii.eqb c) enc) white_space.

Definition all_space_bytes (s : gostring) : Prop :=
  Forall (fun c => space_byte c = true) s.

(** A width function that only reports encodings of white space found at
    the head of its argument. *)
Definition reports_spaces (width : gostring -> nat) : Prop :=
  forall s k, width s = S k ->
    exists x t q, s = x :: t /\ length q = k /\ HasPrefix t q = true
                  /\ all_space_bytes (x :: q).

(** A computation that leaves PATH as it is and whose events all satisfy
    [P]. *)
Definition quiet {A} (P : event -> Prop) (c : Proc A) : Prop :=
  forall (w w' : World) (r : A + nat),
    c w = (r, w') ->
    PATH w' = PATH w
    /\ exists evs, trace w' = trace w ++ evs /\ Forall P evs.

(** A computation that never ends the process. *)
Definition returns {A} (c : Proc A) : Prop :=
  forall w, exists (a : A) (w' : World), c w = (inl a, w').

(** The run of a version probe, [bin version]. *)
Definition is_probe (e : event) : Prop :=
  exists bin : gostring, e = Exec [bin; "version" : gostring].

(** What a dry run may do: print, ask for the latest version, probe the
    installed version. *)
Definition dry_run_event (e : event) : Prop :=
  match e with
  | Stdout _ | Stderr _ _ => True
  | HttpGet u => u = vURL
  | Exec _ => is_probe e
  | _ => False
  end.

(** A machine like [machine] where /usr/local/go/bin/go answers with
    version go1.26.0. *)
Definition env_with_go : Env := {|
  GOOS := "linux";
  GOARCH := "amd64";
  UserHomeDir := inl ("/home/u" : gostring);
  TempDir := "/tmp";
  Geteuid := 1000;
  LookPath := fun _ => None;
  may_create := fun _ => true;
  write_ok := fun _ => true;
  temp_name := fun _ => Some ("/tmp/golang-path-1" : gostring);
  valid_url := fun _ => true;
  http_get := fun _ => inl (200%Z, "archive bytes" : gostring);
  command_output := fun _ _ => ("go version go1.26.0 linux/amd64" : gostring, true);
  command_effect := fun _ f => (f, true)
|}.

(** The managed Go binary is installed. *)
Definition world_with_go : World :=
  mkWorld {[ stdGo := File [] true true ]} "/usr/bin" [].

(** The name of the archive for a version and a platform. *)
Definition archive_name (version goos goarch : gostring) : gostring :=
  version ++ "." ++ goos ++ "-" ++ goarch ++ ".tar.gz".

(** The events of a computation all satisfy [P]; PATH may change. *)
Definition emits {A} (P : event -> Prop) (c : Proc A) : Prop :=
  forall (w w' : World) (r : A + nat),
    c w = (r, w') -> exists evs, trace w' = trace w ++ evs /\ Forall P evs.

(** The two commands of [ensureSystemPath]: the install of the staged
    file as a drop-in, and the shell that appends to the profile. *)
Definition system_path_command (argv : list gostring) : Prop :=
  (exists tmpPath dest : gostring,
     argv = ["install" : gostring; "-m" : gostring; "0644" : gostring;
             tmpPath; dest]
     /\ In dest ["/etc/paths.d/go" : gostring;
                 "/etc/profile.d/golang-path.sh" : gostring])
  \/ exists script : gostring,
       argv = ["sh" : gostring; "-c" : gostring; script].

(** The commands of the installation step. *)
Definition install_command (argv : list gostring) : Prop :=
  argv = ["rm" : gostring; "-rf" : gostring; "/usr/local/go" : gostring]
  \/ (exists tarPath : gostring,
        argv = ["tar" : gostring; "-C" : gostring; "/usr/local" : gostring;
                "-xzf" : gostring; tarPath])
  \/ system_path_command argv.

(** A command of [C] as [runAsRoot] runs it: as it is, or behind sudo
    after [sudo -v]. *)
Definition as_root (C : list gostring -> Prop) (argv : list gostring) : Prop :=
  C argv
  \/ argv = ["sudo" : gostring; "-v" : gostring]
  \/ exists rest, argv = ("sudo" : gostring) :: rest /\ C rest.

Definition is_stdout (e : event) : Prop := exists text, e = Stdout text.

Definition system_path_event (e : event) : Prop :=
  match e with
  | Stdout _ => True
  | Exec argv => as_root system_path_command argv
  | _ => False
  end.

(** What a run of [main] may do. *)
Definition main_event (e : event) : Prop :=
  match e with
  | Stdout _ | StdoutErr _ _ | Stderr _ _ => True
  | HttpGet u => u = vURL \/ exists name, u = "https://go.dev/dl/" ++ name
  | Exec argv => is_probe e \/ as_root install_command argv
  | Setenv key _ => key = "PATH"
  end.

Definition sets_no_variable (e : event) : Prop :=
  match e with
  | Setenv _ _ => False
  | _ => main_event e
  end.

Definition flags_no_path_update : Flags :=
  mkFlags "go1.26.0" false true false "".

(* ===================================================================== *)
(** * Proofs                                                              *)
(* ===================================================================== *)

(* ===================================================================== *)
(** * Facts about package [strings]                                       *)
(* ===================================================================== *)

Section StringFacts.

Lemma HasPrefix_app (s q enc : gostring) :
  HasPrefix s enc = true -> HasPrefix (s ++ q) enc = true.
Proof.
  revert s; induction enc as [|p enc IH]; intros [|c s]; simpl; try easy.
  intros [-> H]%andb_prop. rewrite (IH _ H). reflexivity.
Qed.

Lemma HasPrefix_inv (s enc : gostring) :
  HasPrefix s enc = true -> exists t, s = enc ++ t.
Proof.
  revert s; induction enc as [|p enc IH]; intros [|c s]; simpl; try easy.
  - exists []; reflexivity.
  - eexists; reflexivity.
  - intros [Hc H]%andb_prop. apply Ascii.eqb_eq in Hc as ->.
    destruct (IH _ H) as [t ->]. exists t; reflexivity.
Qed.

Lemma white_space_nonempty (enc : gostring) :
  In enc white_space -> length enc <> 0.
Proof.
  intros H. assert (Hall : Forall (fun e : gostring => length e <> 0) white_space).
  { unfold white_space; simpl; repeat (constructor; [discriminate|]); constructor. }
  rewrite List.Forall_forall in Hall. now apply Hall.
Qed.

Lemma space_width_0 (s : gostring) :
  space_width s = 0 <-> find (HasPrefix s) white_space = None.
Proof.
  unfold space_width. destruct (find _ _) as [enc|] eqn:E; [|easy].
  apply find_some in E as [Hin _]. apply white_space_nonempty in Hin.
  split; [easy | discriminate].
Qed.

Lemma space_width_last_0 (r : gostring) :
  space_width_last r = 0
  <-> find (fun enc => HasPrefix r (rev enc)) white_space = None.
Proof.
  unfold space_width_last. destruct (find _ _) as [enc|] eqn:E; [|easy].
  apply find_some in E as [Hin _]. apply white_space_nonempty in Hin.
  split; [easy | discriminate].
Qed.

(** A prefix of a string that starts with no white space starts with none. *)
Lemma space_width_prefix (p q : gostring) :
  space_width (p ++ q) = 0 -> space_width p = 0.
Proof.
  rewrite !space_width_0. intros H.
  destruct (find (HasPrefix p) white_space) as [enc|] eqn:E; [|reflexivity].
  apply find_some in E as [Hin Hp].
  pose proof (find_none _ _ H _ Hin) as Hn. simpl in Hn.
  rewrite (HasPrefix_app _ q _ Hp) in Hn. discriminate.
Qed.

(** No white-space encoding starts or ends with an allowed byte. *)
Lemma allowed_free (c : ascii) :
  allowed c = true -> first_byte_free c = true /\ last_byte_free c = true.
Proof.
  destruct c as [[] [] [] [] [] [] [] []]; vm_compute; intros H;
    first [discriminate H | split; reflexivity].
Qed.

Lemma first_byte_free_width (c : ascii) (t : gostring) :
  first_byte_free c = true -> space_width (c :: t) = 0.
Proof.
  intros H. apply space_width_0. unfold first_byte_free in H.
  induction white_space as [|enc l IH]; [reflexivity|].
  simpl in H. apply andb_prop in H as [H1 H2].
  simpl find. destruct enc as [|p enc]; [discriminate|].
  simpl. apply negb_true_iff in H1. rewrite H1. simpl. now apply IH.
Qed.

Lemma last_byte_free_width (c : ascii) (t : gostring) :
  last_byte_free c = true -> space_width_last (c :: t) = 0.
Proof.
  intros H. apply space_width_last_0. unfold last_byte_free in H.
  induction white_space as [|enc l IH]; [reflexivity|].
  simpl in H. apply andb_prop in H as [H1 H2].
  simpl find. destruct (rev enc) as [|p enc']; [discriminate|].
  simpl. apply negb_true_iff in H1. rewrite H1. simpl. now apply IH.
Qed.

(** What [drop_spaces] returns is a suffix of its argument that is empty
    or starts with no white space. *)
Lemma drop_spaces_suffix (w : gostring -> nat) (s : gostring) :
  forall skip, exists pre, s = pre ++ drop_spaces w skip s.
Proof.
  induction s as [|c t IH]; intros skip; simpl.
  - exists []; reflexivity.
  - destruct skip as [|k].
    + destruct (w (c :: t)) as [|k].
      * exists []; reflexivity.
      * destruct (IH k) as [pre E]. exists (c :: pre). simpl. now f_equal.
    + destruct (IH k) as [pre E]. exists (c :: pre). simpl. now f_equal.
Qed.

Lemma drop_spaces_head (w : gostring -> nat) (s : gostring) :
  forall skip, drop_spaces w skip s = [] \/ w (drop_spaces w skip s) = 0.
Proof.
  induction s as [|c t IH]; intros skip; simpl.
  - now left.
  - destruct skip as [|k]; [|apply IH].
    destruct (w (c :: t)) as [|k] eqn:E; [now right | apply IH].
Qed.

Lemma TrimSpace_head (s : gostring) :
  TrimSpace s = [] \/ space_width (TrimSpace s) = 0.
Proof.
  unfold TrimSpace, TrimRightSpace, TrimLeftSpace.
  destruct (drop_spaces_head space_width s 0) as [E|E].
  - rewrite E. now left.
  - right. set (u := drop_spaces space_width 0 s) in *.
    destruct (drop_spaces_suffix space_width_last (rev u) 0) as [pre Hpre].
    apply (f_equal (@rev ascii)) in Hpre.
    rewrite rev_involutive, rev_app_distr in Hpre.
    rewrite Hpre in E. now apply space_width_prefix in E.
Qed.

Lemma fields_loop_first (s : gostring) :
  forall f, exists rest, fields_loop 0 (Some f) s = (f ++ first_token s) :: rest.
Proof.
  induction s as [|c t IH]; intros f; simpl.
  - exists []. now rewrite app_nil_r.
  - destruct (space_width (c :: t)) as [|k].
    + destruct (IH (f ++ [c])) as [rest E]. exists rest.
      rewrite E, <- app_assoc. reflexivity.
    + eexists. now rewrite app_nil_r.
Qed.

(** The first field of a string that starts with no white space. *)
Lemma Fields_first (s : gostring) :
  s <> [] -> space_width s = 0 ->
  exists rest, Fields s = first_token s :: rest.
Proof.
  destruct s as [|c t]; [easy|]. intros _ E. unfold Fields. simpl.
  rewrite E. destruct (fields_loop_first t [c]) as [rest Hr].
  exists rest. exact Hr.
Qed.

Lemma fields_loop_allowed (s : gostring) :
  all_allowed s -> forall f, fields_loop 0 (Some f) s = [f ++ s].
Proof.
  induction 1 as [|c t Hc Ht IH]; intros f; simpl.
  - now rewrite app_nil_r.
  - rewrite (first_byte_free_width c t (proj1 (allowed_free c Hc))).
    rewrite IH, <- app_assoc. reflexivity.
Qed.

Lemma Fields_allowed (s : gostring) :
  s <> [] -> all_allowed s -> Fields s = [s].
Proof.
  destruct s as [|c t]; [easy|]. intros _ H. inversion H as [|? ? Hc Ht]; subst.
  unfold Fields. simpl.
  rewrite (first_byte_free_width c t (proj1 (allowed_free c Hc))).
  now rewrite fields_loop_allowed.
Qed.

Lemma TrimSpace_allowed (s : gostring) :
  all_allowed s -> TrimSpace s = s.
Proof.
  intros H. unfold TrimSpace, TrimLeftSpace, TrimRightSpace.
  assert (E1 : drop_spaces space_width 0 s = s).
  { destruct s as [|c t]; [reflexivity|]. inversion H; subst. simpl.
    now rewrite (first_byte_free_width c t (proj1 (allowed_free c ltac:(assumption)))). }
  rewrite E1.
  assert (Hr : all_allowed (rev s)).
  { apply List.Forall_forall. intros c Hc. apply in_rev in Hc.
    unfold all_allowed in H. rewrite List.Forall_forall in H. now apply H. }
  destruct (rev s) as [|c t] eqn:E; simpl.
  - rewrite <- (rev_involutive s), E. reflexivity.
  - inversion Hr; subst.
    rewrite (last_byte_free_width c t (proj2 (allowed_free c ltac:(assumption)))).
    now rewrite <- E, rev_involutive.
Qed.

End StringFacts.

(* ===================================================================== *)
(** * VersionNormalizer                                                   *)
(* ===================================================================== *)

Lemma clean_loop_from_2 (s : gostring) :
  forall idx out, 2 <= idx -> clean_loop idx out s = out ++ keep_allowed s.
Proof.
  induction s as [|c t IH]; intros idx out Hi; simpl.
  - now rewrite app_nil_r.
  - destruct (Nat.ltb_spec idx 2) as [Hlt|_]; [lia|].
    destruct (allowed c).
    + rewrite IH by lia. now rewrite <- app_assoc.
    + now rewrite app_nil_r.
Qed.

Lemma clean_loop_0 (s : gostring) :
  clean_loop 0 [] s = firstn 2 s ++ keep_allowed (skipn 2 s).
Proof.
  destruct s as [|a [|b t]]; try reflexivity.
  simpl. now rewrite clean_loop_from_2 by lia.
Qed.

Lemma keep_allowed_all (s : gostring) : all_allowed (keep_allowed s).
Proof.
  induction s as [|c t IH]; simpl; [constructor|].
  destruct (allowed c) eqn:E; constructor; assumption.
Qed.

Lemma keep_allowed_id (s : gostring) : all_allowed s -> keep_allowed s = s.
Proof. induction 1 as [|c t Hc Ht IH]; simpl; [easy|]. now rewrite Hc, IH. Qed.

(** After the prefix step the token starts with the prefix. *)
Lemma ensure_prefix (token : gostring) :
  exists t, (if HasPrefix token "go" then token else "go" ++ token) = "go" ++ t.
Proof.
  destruct (HasPrefix token "go") eqn:E.
  - now apply HasPrefix_inv in E.
  - eexists; reflexivity.
Qed.

(** The shape of every result of [cleanVersionInput]. *)
Lemma cleanVersionInput_shape (input : gostring) :
  (TrimSpace input = [] /\ cleanVersionInput input = [])
  \/ (TrimSpace input <> [] /\ well_formed_token (cleanVersionInput input)).
Proof.
  unfold cleanVersionInput.
  destruct (TrimSpace input) as [|c t] eqn:E; [now left|right].
  split; [easy|]. cbn [is_empty].
  match goal with |- context [if HasPrefix ?tok _ then _ else _] =>
    destruct (ensure_prefix tok) as [r ->] end.
  rewrite clean_loop_0. exists (keep_allowed r).
  split; [reflexivity | apply keep_allowed_all].
Qed.

Lemma well_formed_all_allowed (v : gostring) :
  well_formed_token v -> v <> [] /\ all_allowed v /\ HasPrefix v "go" = true.
Proof.
  intros (rest & -> & H). split; [easy|]. split; [|reflexivity].
  simpl. repeat (constructor; [reflexivity|]). assumption.
Qed.

Lemma clean_well_formed (v : gostring) :
  well_formed_token v -> cleanVersionInput v = v.
Proof.
  intros Hw. destruct (well_formed_all_allowed v Hw) as (Hne & Hall & Hp).
  unfold cleanVersionInput. rewrite (TrimSpace_allowed _ Hall).
  rewrite (Fields_allowed _ Hne Hall), Hp, clean_loop_0.
  destruct Hw as (rest & -> & Hrest). simpl. now rewrite keep_allowed_id.
Qed.

(** C1 as stated fails at the empty input: the result is empty, so it does
    not begin with the prefix. *)
Lemma cleanVersionInput_empty_not_well_formed :
  ~ well_formed_token (cleanVersionInput "").
Proof. intros (rest & E & _). discriminate E. Qed.

(** C1 (amended): when the input is empty or white space only the result is
    the empty string; for every other input the result begins with the
    two-byte prefix "go" and has only ASCII digits, lowercase ASCII letters
    and '.' after it. *)
Theorem cleanVersionInput_well_formed (input : gostring) :
  (TrimSpace input = [] /\ cleanVersionInput input = [])
  \/ (TrimSpace input <> [] /\
      exists rest : gostring,
        cleanVersionInput input = "go" ++ rest
        /\ Forall (fun c => allowed c = true) rest).
Proof. exact (cleanVersionInput_shape input). Qed.

(** C7: [cleanVersionInput] computes the reference algorithm: trim; the
    empty result is returned as it is; first white-space separated token;
    the prefix is put in front when missing; after the prefix the allowed
    bytes are kept up to the first other byte. *)
Theorem cleanVersionInput_refines_spec (input : gostring) :
  cleanVersionInput input = normalize_spec input.
Proof.
  unfold cleanVersionInput, normalize_spec.
  destruct (TrimSpace_head input) as [E|E].
  - now rewrite E.
  - destruct (TrimSpace input) as [|c t] eqn:Et; [reflexivity|].
    cbn [is_empty].
    destruct (Fields_first (c :: t) ltac:(easy) E) as [rest ->].
    apply clean_loop_0.
Qed.

(** C8: [cleanVersionInput] is idempotent. *)
Theorem cleanVersionInput_idempotent (x : gostring) :
  cleanVersionInput (cleanVersionInput x) = cleanVersionInput x.
Proof.
  destruct (cleanVersionInput_shape x) as [[_ E]|[_ Hw]].
  - rewrite E. reflexivity.
  - now apply clean_well_formed.
Qed.

(** ** [parseGoVersionOutput] *)

Lemma clean_length_guard (token : gostring) :
  HasPrefix (cleanVersionInput token) "go"
  && (2 <? length (cleanVersionInput token))%nat
  = (2 <? length (cleanVersionInput token))%nat.
Proof.
  destruct (cleanVersionInput_shape token) as [[_ E]|[_ Hw]].
  - rewrite E. reflexivity.
  - apply well_formed_all_allowed in Hw as (_ & _ & ->). reflexivity.
Qed.

Lemma scan_tokens_find (output : gostring) (fields : list gostring) :
  scan_tokens output fields
  = match find usable_token fields with
    | Some f => inl (cleanVersionInput f)
    | None => inr (ErrUnableToParse output)
    end.
Proof.
  induction fields as [|token rest IH]; [reflexivity|].
  cbn [scan_tokens find]; cbv zeta.
  unfold usable_token at 1. rewrite clean_length_guard.
  destruct (HasPrefix token "go"); cbn [andb]; [|exact IH].
  destruct (2 <? length (cleanVersionInput token))%nat; [reflexivity | exact IH].
Qed.

(** C4 as stated fails: the only field of "go version" that begins with the
    prefix is "go" itself, which the claim selects; the code rejects it and
    reports an error. *)
Lemma parseGoVersionOutput_rejects_bare_prefix :
  result_value (parseGoVersionOutput "go version") = None
  /\ parse_spec "go version" = Some ("go" : gostring)
  /\ result_value (parseGoVersionOutput "go version") <> parse_spec "go version".
Proof. repeat split; vm_compute; congruence. Qed.

(** C4 (amended): the result is the normalised third white-space separated
    field when that field begins with "go"; otherwise it is the normal form
    of the first field that begins with "go" and whose normal form is
    longer than the bare prefix "go"; it is an error exactly when neither
    exists.  The typical probe output gives "go1.22.6". *)
Theorem parseGoVersionOutput_by_design :
  (forall output : gostring,
      parseGoVersionOutput output
      = match parse_by_design output with
        | Some v => inl v
        | None => inr (ErrUnableToParse output)
        end)
  /\ parseGoVersionOutput "go version go1.22.6 linux/amd64"
     = inl ("go1.22.6" : gostring).
Proof.
  split; [|reflexivity]. intros output.
  unfold parseGoVersionOutput, parse_by_design.
  cbv zeta. generalize (Fields (TrimSpace output)) as fields. intros fields.
  rewrite scan_tokens_find.
  destruct fields as [|a [|b [|c r]]];
    cbn [length nth nth_error Nat.leb andb];
    try (destruct (HasPrefix c "go"); [reflexivity|]);
    match goal with |- context [find usable_token ?l] =>
      destruct (find usable_token l); reflexivity end.
Qed.

(* ===================================================================== *)
(** * Running computations                                                *)
(* ===================================================================== *)

Lemma bind_run {A B} (c : Proc A) (k : A -> Proc B) (w w' : World) (a : A) :
  c w = (inl a, w') -> (c ≫= k) w = k a w'.
Proof. intros E. unfold mbind, proc_bind. now rewrite E. Qed.

Lemma bind_exit {A B} (c : Proc A) (k : A -> Proc B) (w w' : World) (code : nat) :
  c w = (inr code, w') -> (c ≫= k) w = (inr code, w').
Proof. intros E. unfold mbind, proc_bind. now rewrite E. Qed.

Ltac run_proc :=
  unfold mbind, proc_bind, mret, proc_ret, emit, get_fs, set_fs, exit; simpl.

Ltac case_matches :=
  repeat match goal with
         | |- context [match ?x with _ => _ end] =>
             lazymatch x with
             | context [match _ with _ => _ end] => fail
             | _ => destruct x eqn:?; simpl
             end
         end.

(* ===================================================================== *)
(** * ProfileLineWriter                                                   *)
(* ===================================================================== *)

(** ** [containsProfileLine] *)

Lemma HasPrefix_self (sub b : gostring) : HasPrefix (sub ++ b) sub = true.
Proof. induction sub as [|c sub IH]; simpl; [reflexivity|]. now rewrite Ascii.eqb_refl. Qed.

Lemma Contains_spec (s sub : gostring) :
  Contains s sub = true <-> is_substring sub s.
Proof.
  split.
  - induction s as [|c t IH]; simpl; intros H%orb_prop.
    + destruct H as [H|H]; [|discriminate].
      apply HasPrefix_inv in H as [b ->]. now exists [], b.
    + destruct H as [H|H].
      * apply HasPrefix_inv in H as [b ->]. now exists [], b.
      * destruct (IH H) as (a & b & ->). now exists (c :: a), b.
  - intros (a & b & ->). induction a as [|c a IH]; simpl.
    + assert (U : forall s, Contains s sub = true <-> HasPrefix s sub = true \/ match s with [] => False | _ :: t => Contains t sub = true end).
      { intros [|x s]; simpl; rewrite orb_true_iff; intuition discriminate. }
      apply U. left. apply HasPrefix_self.
    + rewrite IH. apply orb_true_r.
Qed.

Lemma split_loop_In (sep : ascii) (s : gostring) :
  forall piece l,
    In l (split_loop sep piece s) <->
    (exists h post, l = piece ++ h /\ s = h ++ post /\ ~ In sep h
                    /\ ends_piece sep post)
    \/ (exists p post, s = p ++ [sep] ++ l ++ post /\ ~ In sep l
                       /\ ends_piece sep post).
Proof.
  induction s as [|c t IH]; intros piece l; simpl.
  - split.
    + intros [<-|[]]. left. exists [], []. rewrite app_nil_r.
      repeat split; [easy | now left].
    + intros [(h & post & E1 & E & _) | (p & post & E & _)].
      * symmetry in E. apply app_eq_nil in E as [-> _].
        rewrite app_nil_r in E1. now left.
      * destruct p; discriminate E.
  - destruct (Ascii.eqb_spec c sep) as [Hc|Hne]; simpl; rewrite IH; clear IH.
    + subst c. split.
      * intros [E|[(h & post & E1 & E2 & Hh & Hp) | (p & post & E2 & Hl & Hp)]].
        -- subst l. left. exists [], (sep :: t). rewrite app_nil_r.
           repeat split; [easy | right; now eexists].
        -- simpl in E1. subst. right. exists [], post. now repeat split.
        -- subst. right. exists (sep :: p), post. now repeat split.
      * intros [(h & post & E1 & E & Hh & Hp) | (p & post & E & Hl & Hp)].
        -- destruct h as [|x h].
           ++ left. rewrite app_nil_r in E1. now subst.
           ++ simpl in E; inversion E; subst. exfalso. apply Hh. now left.
        -- right. destruct p as [|x p]; simpl in E; inversion E; subst.
           ++ left. exists l, post. now repeat split.
           ++ right. exists p, post. now repeat split.
    + split.
      * intros [(h & post & E1 & E2 & Hh & Hp) | (p & post & E2 & Hl & Hp)].
        -- subst. left. exists (c :: h), post. rewrite <- app_assoc.
           repeat split; try easy. intros [E|Hin]; [now apply Hne|now apply Hh].
        -- subst. right. exists (c :: p), post. now repeat split.
      * intros [(h & post & E1 & E & Hh & Hp) | (p & post & E & Hl & Hp)].
        -- destruct h as [|x h].
           ++ simpl in E. subst post. destruct Hp as [Hp|[q Hp]]; [discriminate|].
              inversion Hp. now destruct Hne.
           ++ simpl in E; inversion E; subst. left. exists h, post.
              rewrite <- app_assoc.
              repeat split; try easy. intros Hin. apply Hh. now right.
        -- destruct p as [|x p]; simpl in E; inversion E; subst.
           ++ now destruct Hne.
           ++ right. exists p, post. now repeat split.
Qed.

Lemma SplitSeq_pieces (sep : ascii) (content l : gostring) :
  In l (SplitSeq content sep) <-> piece_of sep content l.
Proof.
  unfold SplitSeq. rewrite split_loop_In. split.
  - intros [(h & post & E1 & E2 & Hh & Hp) | (p & post & E2 & Hl & Hp)]; subst.
    + exists [], post. repeat split; try easy. now left.
    + exists (p ++ [sep]), post. rewrite <- app_assoc.
      repeat split; try easy. right. now exists p.
  - intros (pre & post & E & Hl & [Hpre|[p Hpre]] & Hp); subst.
    + left. exists l, post. now repeat split.
    + right. exists p, post. rewrite <- app_assoc. now repeat split.
Qed.

Lemma profile_loop_spec (target : gostring) (lines : list gostring) :
  profile_loop target lines = true <->
  exists l, In l lines /\
    (TrimSpace l = target
     \/ (Contains (TrimSpace l) install_dir = true
         /\ Contains (TrimSpace l) export_keyword = true)).
Proof.
  induction lines as [|line rest IH]; simpl.
  - split; [discriminate | now intros (l & [] & _)].
  - unfold eqb. case_bool_decide as Ht.
    + split; [|reflexivity]. intros _. exists line. split; [now left|now left].
    + destruct (Contains (TrimSpace line) install_dir
                && Contains (TrimSpace line) export_keyword) eqn:Ec.
      * split; [|reflexivity]. intros _. exists line.
        apply andb_prop in Ec. split; [now left|now right].
      * rewrite IH. split.
        -- intros (l & Hin & H). exists l. split; [now right|exact H].
        -- intros (l & [<-|Hin] & H); [|now exists l].
           destruct H as [H|[H1 H2]]; [contradiction|].
           rewrite H1, H2 in Ec. discriminate.
Qed.

(** C9: [containsProfileLine content target] is true exactly when some line
    of [content] (a piece between line feeds), after its surrounding white
    space is trimmed, equals [target] or contains both "/usr/local/go/bin"
    and "export PATH". *)
Theorem containsProfileLine_iff (content target : gostring) :
  containsProfileLine content target = true <->
  exists line : gostring,
    line_of content line /\
    (TrimSpace line = target
     \/ (is_substring install_dir (TrimSpace line)
         /\ is_substring export_keyword (TrimSpace line))).
Proof.
  unfold containsProfileLine, line_of. rewrite profile_loop_spec.
  split; intros (l & Hl & H); exists l.
  - rewrite <- SplitSeq_pieces, <- !Contains_spec. now split.
  - rewrite SplitSeq_pieces, !Contains_spec. now split.
Qed.

(** ** [ensureUserPath] *)

(** The two loops are searches that leave the world as it is. *)
Lemma scan_profiles_find (home : gostring) (candidates : list gostring) (w : World) :
  scan_profiles home profile_line candidates w
  = (inl (option_map (Join home) (find (satisfied home (fs w)) candidates)), w).
Proof.
  induction candidates as [|name rest IH]; [reflexivity|].
  cbn [scan_profiles find]. unfold satisfied at 1.
  unfold mbind, proc_bind, ReadFile, get_fs, mret, proc_ret in *. simpl.
  destruct (fs w !! Join home name) as [[|data [] wr]|]; simpl; try exact IH.
  destruct (containsProfileLine data profile_line); [reflexivity | exact IH].
Qed.

Lemma first_existing_find (home : gostring) (candidates : list gostring) (w : World) :
  first_existing home candidates w
  = (inl (option_map (Join home) (find (present home (fs w)) candidates)), w).
Proof.
  induction candidates as [|name rest IH]; [reflexivity|].
  cbn [first_existing find]. unfold present at 1.
  unfold mbind, proc_bind, Stat, get_fs, mret, proc_ret in *. simpl.
  destruct (fs w !! Join home name) as [n|]; simpl; [reflexivity | exact IH].
Qed.

Lemma append_block_fs (env : Env) (path : gostring) (w : World) :
  fs (append_block env path profile_line w).2 = append_effect env path (fs w).
Proof.
  unfold append_block, append_effect, Write, log, emit, set_fs, get_fs.
  unfold mbind, proc_bind, mret, proc_ret. simpl.
  destruct (fs w !! path) as [[|content r wr]|]; simpl; try reflexivity.
  destruct (write_ok env path); reflexivity.
Qed.

Lemma OpenFile_fs (env : Env) (create : bool) (path : gostring) (w : World) :
  match open_effect env create path (fs w) with
  | Some f' => OpenFile env create path w = (inl None, mkWorld f' (PATH w) (trace w))
  | None => exists err, OpenFile env create path w = (inl (Some err), w)
  end.
Proof.
  unfold open_effect, OpenFile, set_fs, get_fs.
  unfold mbind, proc_bind, mret, proc_ret. simpl.
  destruct (fs w !! path) as [[|content r []]|]; simpl; eauto.
  - destruct w; reflexivity.
  - destruct (create && may_create env path); simpl; eauto.
Qed.

(** What [ensureUserPath] does to the file system. *)
Lemma ensureUserPath_fs (env : Env) (w : World) :
  fs (ensureUserPath env w).2 = ensure_effect env (fs w).
Proof.
  unfold ensureUserPath, ensure_effect.
  destruct (UserHomeDir env) as [home|err]; [|reflexivity].
  cbv zeta. unfold mbind at 1, proc_bind at 1. rewrite scan_profiles_find.
  destruct (find (satisfied home (fs w)) _) as [name|]; [reflexivity|].
  cbn [option_map]. unfold mbind at 1, proc_bind at 1. rewrite first_existing_find.
  destruct (find (present home (fs w)) _) as [name|]; cbn [option_map].
  - unfold mbind at 1, proc_bind at 1.
    pose proof (OpenFile_fs env false (Join home name) w) as H.
    destruct (open_effect env false (Join home name) (fs w)) as [f'|].
    + rewrite H. apply append_block_fs.
    + destruct H as [err ->]. reflexivity.
  - unfold mbind at 1, proc_bind at 1.
    pose proof (OpenFile_fs env true (Join home (hd [] (profile_candidates env))) w) as H.
    destruct (open_effect env true _ (fs w)) as [f'|].
    + rewrite H. apply append_block_fs.
    + destruct H as [err ->]. reflexivity.
Qed.

Lemma find_exists {A} (p : A -> bool) (l : list A) (x : A) :
  In x l -> p x = true -> exists y, find p l = Some y.
Proof.
  intros Hin Hp. destruct (find p l) as [y|] eqn:E; [now exists y|].
  rewrite (find_none _ _ E _ Hin) in Hp. discriminate.
Qed.

Lemma candidates_head (env : Env) :
  In (hd [] (profile_candidates env)) (profile_candidates env).
Proof.
  unfold profile_candidates. destruct (eqb (GOOS env) "darwin"); now left.
Qed.

(** The appended block puts the target line on a line of its own. *)
Lemma block_has_line (content : gostring) :
  containsProfileLine (content ++ profile_block profile_line) profile_line = true.
Proof.
  unfold containsProfileLine. apply profile_loop_spec.
  exists profile_line. split; [|left; reflexivity].
  apply SplitSeq_pieces.
  exists (content ++ [nl] ++ "# Added by go-updater to expose Go binaries" ++ [nl]), [nl].
  split; [|split; [|split]].
  - unfold profile_block. now rewrite <- !app_assoc.
  - vm_compute. intuition discriminate.
  - right. exists (content ++ [nl] ++ "# Added by go-updater to expose Go binaries").
    now rewrite <- !app_assoc.
  - right. now exists [].
Qed.

Lemma ensure_effect_satisfied (env : Env) (f : gmap gostring node)
    (home name : gostring) :
  UserHomeDir env = inl home -> In name (profile_candidates env) ->
  satisfied home f name = true -> ensure_effect env f = f.
Proof.
  intros Hh Hin Hs. unfold ensure_effect. rewrite Hh. cbv zeta.
  destruct (find_exists _ _ _ Hin Hs) as [y ->]. reflexivity.
Qed.

Lemma ensure_effect_cases (env : Env) (f : gmap gostring node) :
  candidates_readable env f ->
  ensure_effect env f = f
  \/ (exists home name,
        UserHomeDir env = inl home /\ In name (profile_candidates env)
        /\ satisfied home (ensure_effect env f) name = true)
  \/ (exists home,
        UserHomeDir env = inl home
        /\ ensure_effect env f
           = <[Join home (hd [] (profile_candidates env)) := File [] true true]> f
        /\ write_ok env (Join home (hd [] (profile_candidates env))) = false
        /\ forall name, In name (profile_candidates env) ->
                        f !! Join home name = None).
Proof.
  intros Hread. unfold ensure_effect.
  destruct (UserHomeDir env) as [home|err] eqn:Hh; [|now left]. cbv zeta.
  destruct (find (satisfied home f) _) as [?|] eqn:Es; [now left|].
  destruct (find (present home f) _) as [name|] eqn:Ep.
  - apply find_some in Ep as [Hin Hp]. unfold open_effect, append_effect.
    destruct (f !! Join home name) as [[|content r []]|] eqn:El;
      simpl; try now left.
    rewrite El. destruct (write_ok env (Join home name)); [|now left].
    right; left. exists home, name. repeat split; try assumption.
    unfold satisfied. rewrite lookup_insert_eq.
    rewrite (Hread _ _ _ _ _ Hh Hin El). apply block_has_line.
  - assert (Habs : forall name, In name (profile_candidates env) ->
                                f !! Join home name = None).
    { intros name Hin. pose proof (find_none _ _ Ep _ Hin) as Hp.
      unfold present in Hp. now destruct (f !! Join home name). }
    pose proof (candidates_head env) as Hhd.
    set (p0 := Join home (hd [] (profile_candidates env))).
    unfold open_effect, append_effect. fold p0.
    rewrite (Habs _ Hhd : f !! p0 = None). simpl.
    destruct (may_create env p0); [|now left].
    rewrite lookup_insert_eq.
    destruct (write_ok env p0) eqn:Ew.
    + right; left. exists home, (hd [] (profile_candidates env)).
      repeat split; try assumption.
      unfold satisfied. fold p0. rewrite lookup_insert_eq. apply block_has_line.
    + right; right. exists home. now repeat split.
Qed.

Lemma ensure_effect_idempotent (env : Env) (f : gmap gostring node) :
  candidates_readable env f ->
  ensure_effect env (ensure_effect env f) = ensure_effect env f.
Proof.
  intros Hread.
  destruct (ensure_effect_cases env f Hread)
    as [E|[(home & name & Hh & Hin & Hs)|(home & Hh & E & Ew & Habs)]].
  - now rewrite !E.
  - now apply (ensure_effect_satisfied _ _ home name).
  - rewrite E. set (p0 := Join home (hd [] (profile_candidates env))) in *.
    set (f1 := <[p0 := File [] true true]> f).
    assert (L0 : f1 !! p0 = Some (File [] true true)) by apply lookup_insert_eq.
    unfold ensure_effect. rewrite Hh. cbv zeta.
    destruct (find (satisfied home f1) _); [reflexivity|].
    destruct (find (present home f1) _) as [name|] eqn:Ep.
    + apply find_some in Ep as [Hin Hp].
      destruct (decide (Join home name = p0)) as [Ej|Hne].
      * rewrite Ej. unfold open_effect, append_effect. rewrite L0, L0, Ew. reflexivity.
      * unfold present, f1 in Hp. rewrite lookup_insert_ne in Hp by congruence.
        rewrite (Habs _ Hin) in Hp. discriminate.
    + fold p0. unfold open_effect, append_effect. rewrite L0, L0, Ew. reflexivity.
Qed.

(** C2 fails on the code: a profile that exists, cannot be read and can be
    opened for appending is never seen to hold the line, so the second of
    two calls in succession appends the block again. *)
Lemma ensureUserPath_write_only_profile_grows :
  let w1 := (ensureUserPath env_user write_only_profile).2 in
  fs (ensureUserPath env_user w1).2 <> fs w1.
Proof.
  intros w1 E.
  apply (f_equal (fun m : gmap gostring node => m !! ("/home/u/.profile" : gostring))) in E.
  vm_compute in E. discriminate E.
Qed.

Lemma candidates_readable_check (env : Env) (f : gmap gostring node) :
  candidates_readableb env f = true -> candidates_readable env f.
Proof.
  unfold candidates_readableb. intros H home name data r w Hh Hin Hl.
  rewrite Hh in H. rewrite forallb_forall in H. specialize (H name Hin).
  unfold readable_at in H. now rewrite Hl in H.
Qed.

(** With a satisfied candidate the call reports success. *)
Lemma ensureUserPath_satisfied_returns (env : Env) (w : World)
    (home name : gostring) :
  UserHomeDir env = inl home -> In name (profile_candidates env) ->
  satisfied home (fs w) name = true ->
  (ensureUserPath env w).1 = inl None.
Proof.
  intros Hh Hin Hs. unfold ensureUserPath. rewrite Hh. cbv zeta.
  rewrite (bind_run _ _ _ _ _ (scan_profiles_find home _ w)).
  destruct (find_exists _ _ _ Hin Hs) as [y ->]. reflexivity.
Qed.

(** Where the second call does repeat nothing: when every candidate
    profile file that exists can be read, the second of two calls in
    succession leaves every file as the first call left it; and when a
    readable candidate already holds a line that [containsProfileLine]
    accepts, such as "export PATH=/usr/local/go/bin:$PATH", the call
    reports success and neither call changes any file. *)
Theorem ensureUserPath_idempotent (env : Env) (w : World) :
  candidates_readable env (fs w) ->
  let w1 := (ensureUserPath env w).2 in
  let w2 := (ensureUserPath env w1).2 in
  fs w2 = fs w1
  /\ ((exists home name,
         UserHomeDir env = inl home /\ In name (profile_candidates env)
         /\ satisfied home (fs w) name = true)
      -> (ensureUserPath env w).1 = inl None /\ fs w1 = fs w /\ fs w2 = fs w)
  /\ containsProfileLine "export PATH=/usr/local/go/bin:$PATH" profile_line = true.
Proof.
  intros Hread w1 w2. unfold w2, w1. rewrite !ensureUserPath_fs.
  split; [now apply ensure_effect_idempotent|]. split; [|reflexivity].
  intros (home & name & Hh & Hin & Hs).
  split; [now apply (ensureUserPath_satisfied_returns env w home name)|].
  rewrite (ensure_effect_satisfied env (fs w) home name Hh Hin Hs).
  split; [reflexivity|]. now apply (ensure_effect_satisfied env (fs w) home name).
Qed.

(** Two calls at a profile that holds the alternate export line. *)
Lemma ensureUserPath_idempotent_witness :
  fs (ensureUserPath env_user (ensureUserPath env_user alternate_profile).2).2
  = fs (ensureUserPath env_user alternate_profile).2
  /\ fs (ensureUserPath env_user alternate_profile).2 = fs alternate_profile.
Proof.
  destruct (ensureUserPath_idempotent env_user alternate_profile)
    as (H1 & H2 & _).
  - apply candidates_readable_check. vm_compute. reflexivity.
  - split; [exact H1|]. apply H2.
    exists ("/home/u" : gostring), (".profile" : gostring).
    split; [reflexivity|]. split; [now left | vm_compute; reflexivity].
Defined.

(* ===================================================================== *)
(** * Orchestrator                                                        *)
(* ===================================================================== *)

(** ** Running the parts of [main] *)

Lemma network_calls_app (t1 t2 : list event) :
  network_calls (t1 ++ t2) = network_calls t1 ++ network_calls t2.
Proof. apply flat_map_app. Qed.

(** The version probe leaves the file system as it is and makes no network
    call. *)
Lemma getInstalledGoVersion_run (env : Env) (w : World) :
  exists r evs,
    getInstalledGoVersion env w
    = (inl r, mkWorld (fs w) (PATH w) (trace w ++ evs))
    /\ network_calls evs = [].
Proof.
  destruct w as [f P t].
  unfold getInstalledGoVersion, probe, CombinedOutput, Stat. run_proc.
  case_matches;
    eexists;
    first [ exists []; split; [rewrite app_nil_r; reflexivity | reflexivity]
          | eexists; split; [rewrite <- ?app_assoc; reflexivity | reflexivity] ].
Qed.

Lemma getInstalledGoVersion_fs_only (env : Env) (w w' : World) :
  fs w = fs w' ->
  (getInstalledGoVersion env w).1 = (getInstalledGoVersion env w').1.
Proof.
  destruct w as [f P t], w' as [f' P' t']. simpl. intros <-.
  unfold getInstalledGoVersion, probe, CombinedOutput, Stat. run_proc.
  case_matches; reflexivity.
Qed.

Lemma up_to_date_fs_only (env : Env) (w w' : World) (v : gostring) :
  fs w = fs w' -> up_to_date env w v = up_to_date env w' v.
Proof.
  intros E. unfold up_to_date. now rewrite (getInstalledGoVersion_fs_only env w w' E).
Qed.

Lemma fetchLatestVersion_run (env : Env) (w : World) :
  exists r, fetchLatestVersion env w = (inl r, with_events w [HttpGet vURL]).
Proof.
  unfold fetchLatestVersion. run_proc.
  case_matches; eexists; reflexivity.
Qed.

(** How the version step ends. *)
Lemma main_version_run (env : Env) (flags : Flags) (w : World) :
  if is_empty (TrimSpace (versionFlag flags)) then
    match (fetchLatestVersion env w).1 with
    | inl (inl latest) =>
        main_version env flags w = (inl latest, with_events w [HttpGet vURL])
    | inl (inr e) =>
        main_version env flags w
        = (inr 1, with_events w [HttpGet vURL; Stderr "fetch latest version" e])
    | inr _ => False
    end
  else main_version env flags w = (inl (cleanVersionInput (versionFlag flags)), w).
Proof.
  unfold main_version. destruct (is_empty _); [|reflexivity].
  destruct (fetchLatestVersion_run env w) as [r E]. rewrite E. simpl.
  destruct r as [latest|e].
  - now rewrite (bind_run _ _ _ _ _ E).
  - rewrite (bind_run _ _ _ _ _ E). unfold must_value. run_proc.
    unfold with_events. simpl. now rewrite <- app_assoc.
Qed.

(** On an unsupported platform [main] ends in the up-to-date check or in
    the platform check. *)
Lemma main_unsupported_after_version (env : Env) (flags : Flags)
    (w w0 : World) (version : gostring) (err : error) :
  resolveTarget env = inr err ->
  main_version env flags w = (inl version, w0) ->
  exists evs,
    network_calls evs = []
    /\ main env flags w
       = if up_to_date env w0 version
         then (inr 0, with_events w0 (evs ++
                 [Stdout ("[go-updater] " ++ ("Go is already up to date (" ++ version
                          ++ "). Nothing to do.") ++ [nl])]))
         else (inr 1, with_events w0 (evs ++
                 [Stderr "resolve target platform" err])).
Proof.
  intros Hres Hv. unfold main, main_plan.
  destruct (getInstalledGoVersion_run env w0) as (r & evs & E & Hn).
  exists evs. split; [exact Hn|].
  unfold up_to_date. rewrite E. cbn [fst].
  set (same := match r with inl v => eqb v version | inr _ => false end).
  destruct same eqn:Es.
  - apply bind_exit. rewrite (bind_run _ _ _ _ _ Hv), (bind_run _ _ _ _ _ E).
    fold same. rewrite Es. unfold log. run_proc.
    unfold with_events. simpl. now rewrite <- app_assoc.
  - apply bind_exit. rewrite (bind_run _ _ _ _ _ Hv), (bind_run _ _ _ _ _ E).
    fold same. rewrite Es, Hres. unfold must_value. run_proc.
    unfold with_events. simpl. now rewrite <- app_assoc.
Qed.

(** C6 as stated fails on the fetch-latest path: the version is fetched
    over the network before the platform is looked at. *)
Lemma main_fetches_before_platform_check :
  resolveTarget env_riscv = inr (ErrUnsupportedArch "riscv64")
  /\ network_calls (trace (main env_riscv flags_latest empty_world).2) = [vURL]
  /\ ~ fails_before_network env_riscv flags_latest empty_world.
Proof.
  split; [reflexivity|]. split; [reflexivity|].
  intros (err & t & _ & _ & _ & Hn). vm_compute in Hn. discriminate Hn.
Qed.

(** C6 (amended): on an unsupported OS or architecture [main] never requests
    the archive and leaves the file system as it is.  With a user-supplied
    version it makes no network call at all, and it ends with the
    unsupported-platform error unless the installed version already equals
    the target, in which case it ends with "already up to date".  On the
    fetch-latest path the one network call, the version fetch, comes first;
    then the run ends in the same way, or with the error of the fetch. *)
Theorem main_unsupported_platform (env : Env) (flags : Flags) (w : World)
    (err : error) :
  resolveTarget env = inr err ->
  let run := main env flags w in
  (err = ErrUnsupportedOS (GOOS env) \/ err = ErrUnsupportedArch (GOARCH env))
  /\ fs run.2 = fs w
  /\ if is_empty (TrimSpace (versionFlag flags)) then
       network_calls (trace run.2) = network_calls (trace w) ++ [vURL]
       /\ match (fetchLatestVersion env w).1 with
          | inl (inl latest) =>
              if up_to_date env w latest then run.1 = inr 0
              else run.1 = inr 1
                   /\ exists t, trace run.2
                                = t ++ [Stderr "resolve target platform" err]
          | inl (inr e) =>
              run.1 = inr 1
              /\ exists t, trace run.2 = t ++ [Stderr "fetch latest version" e]
          | inr _ => False
          end
     else
       network_calls (trace run.2) = network_calls (trace w)
       /\ if up_to_date env w (cleanVersionInput (versionFlag flags))
          then run.1 = inr 0
          else run.1 = inr 1
               /\ exists t, trace run.2
                            = t ++ [Stderr "resolve target platform" err].
Proof.
  intros Hres run. subst run. split.
  { unfold resolveTarget in Hres. revert Hres.
    case_matches; intros [= <-]; auto. }
  pose proof (main_version_run env flags w) as Hv.
  destruct (is_empty (TrimSpace (versionFlag flags))).
  - destruct (fetchLatestVersion env w).1 as [[latest|e]|] eqn:Ef; [| |contradiction].
    + destruct (main_unsupported_after_version env flags w _ latest err Hres Hv)
        as (evs & Hn & ->).
      rewrite (up_to_date_fs_only env (with_events w [HttpGet vURL]) w latest eq_refl).
      destruct (up_to_date env w latest); simpl;
        rewrite !network_calls_app, Hn; simpl; rewrite ?app_nil_r;
        repeat split; try reflexivity.
      eexists. now rewrite !app_assoc.
    + unfold main, main_plan.
      rewrite (bind_exit _ _ _ _ _ (bind_exit _ _ _ _ _ Hv)). simpl.
      rewrite network_calls_app. repeat split.
      exists (trace w ++ [HttpGet vURL]). now rewrite <- app_assoc.
  - destruct (main_unsupported_after_version env flags w _ _ err Hres Hv)
      as (evs & Hn & ->).
    destruct (up_to_date env w _); simpl;
      rewrite !network_calls_app, Hn; simpl; rewrite ?app_nil_r;
      repeat split; try reflexivity.
    eexists. now rewrite !app_assoc.
Qed.

(** The amended C6 on linux/riscv64 with the version given on the command
    line. *)
Lemma main_unsupported_platform_witness :
  network_calls (trace (main env_riscv flags_pinned empty_world).2) = []
  /\ (main env_riscv flags_pinned empty_world).1 = inr 1.
Proof.
  pose proof (main_unsupported_platform env_riscv flags_pinned empty_world
                (ErrUnsupportedArch "riscv64") eq_refl) as H.
  cbv zeta in H.
  change (is_empty (TrimSpace (versionFlag flags_pinned))) with false in H.
  change (up_to_date env_riscv empty_world
            (cleanVersionInput (versionFlag flags_pinned))) with false in H.
  cbv iota in H. destruct H as (_ & _ & Hn & Hs & _). split; assumption.
Defined.

(** ** What [main] does to the file system *)

Section Effects.

Lemma unchanged_ret {A} (a : A) : fs_unchanged (mret a).
Proof. intros w w' r [= _ <-]. reflexivity. Qed.

Lemma unchanged_exit {A} (code : nat) : fs_unchanged (@exit A code).
Proof. intros w w' r [= _ <-]. reflexivity. Qed.

Lemma unchanged_emit (e : event) : fs_unchanged (emit e).
Proof. intros w w' r [= _ <-]. reflexivity. Qed.

Lemma unchanged_bind {A B} (c : Proc A) (k : A -> Proc B) :
  fs_unchanged c -> (forall a, fs_unchanged (k a)) -> fs_unchanged (c ≫= k).
Proof.
  intros Hc Hk w w' r E. unfold mbind, proc_bind in E.
  destruct (c w) as [[a|code] w1] eqn:Ec.
  - rewrite (Hk _ _ _ _ E). eapply Hc; eauto.
  - injection E as _ <-. eapply Hc; eauto.
Qed.

Lemma unchanged_with_events {A} (c : Proc A) :
  (forall w, exists r evs, c w = (r, with_events w evs)) -> fs_unchanged c.
Proof.
  intros H w w' r E. destruct (H w) as (r' & evs & E'). rewrite E' in E.
  now injection E as _ <-.
Qed.

Lemma unchanged_must (err : option error) (context : gostring) :
  fs_unchanged (must err context).
Proof.
  destruct err; simpl; [|apply unchanged_ret].
  apply unchanged_bind; [apply unchanged_emit | intros; apply unchanged_exit].
Qed.

Lemma unchanged_must_value {A} (r : A + error) (context : gostring) :
  fs_unchanged (must_value r context).
Proof.
  destruct r; simpl; [apply unchanged_ret|].
  apply unchanged_bind; [apply unchanged_emit | intros; apply unchanged_exit].
Qed.

Create HintDb unchanged.
#[local] Hint Resolve unchanged_ret unchanged_exit unchanged_emit
  unchanged_must unchanged_must_value : unchanged.

Lemma unchanged_main_version (env : Env) (flags : Flags) :
  fs_unchanged (main_version env flags).
Proof.
  unfold main_version. destruct (is_empty _); [|auto with unchanged].
  apply unchanged_bind; [|auto with unchanged].
  apply unchanged_with_events. intros w.
  destruct (fetchLatestVersion_run env w) as [r ->]. eauto.
Qed.

Lemma unchanged_getInstalledGoVersion (env : Env) :
  fs_unchanged (getInstalledGoVersion env).
Proof.
  apply unchanged_with_events. intros w.
  destruct (getInstalledGoVersion_run env w) as (r & evs & -> & _). eauto.
Qed.

Lemma unchanged_printPlan (version goos goarch url tarPath : gostring)
    (noPath system : bool) :
  fs_unchanged (printPlan version goos goarch url tarPath noPath system).
Proof.
  unfold printPlan, println.
  repeat (apply unchanged_bind; [|intros _]); try apply unchanged_emit.
  destruct noPath; cbn [negb]; [apply unchanged_emit|].
  apply unchanged_bind; [apply unchanged_emit|]. intros _.
  destruct system; [|apply unchanged_ret].
  destruct (eqb goos "darwin"); apply unchanged_emit.
Qed.

Lemma new_dirs_same (dirs : list gostring) (f f' : gmap gostring node) :
  f' = f -> new_dirs dirs f f'.
Proof. intros -> path. now left. Qed.

Lemma new_dirs_cons (d : gostring) (dirs : list gostring)
    (f f' : gmap gostring node) :
  new_dirs dirs f f' -> new_dirs (d :: dirs) f f'.
Proof.
  intros H path. destruct (H path) as [E|(Hin & Hn & Hd)]; [now left|].
  right. split; [now right | now split].
Qed.

Lemma new_dirs_only (dirs : list gostring) (f f' : gmap gostring node) :
  new_dirs dirs f f' -> only_new_directories f f'.
Proof.
  intros H path. destruct (H path) as [E|(_ & Hn & Hd)]; [now left | now right].
Qed.

(** How [os.MkdirAll] ends: it returns, with PATH and the events as they
    were; directories of the chain may be new; on success the first of the
    chain is a directory. *)
Lemma mkdir_all_run (env : Env) (dirs : list gostring) (w : World) :
  exists r f',
    mkdir_all env dirs w = (inl r, mkWorld f' (PATH w) (trace w))
    /\ new_dirs dirs (fs w) f'
    /\ (r = None ->
        match dirs with [] => True | d :: _ => f' !! d = Some Dir end).
Proof.
  revert w. induction dirs as [|d parents IH]; intros w.
  { exists None, (fs w). destruct w.
    split; [reflexivity|]. split; [now apply new_dirs_same | easy]. }
  cbn [mkdir_all]. unfold mbind at 1, proc_bind at 1, get_fs at 1. cbv beta iota.
  destruct (fs w !! d) as [[|content r0 w0]|] eqn:El.
  - exists None, (fs w). destruct w.
    split; [reflexivity|]. split; [now apply new_dirs_same | now intros _].
  - exists (Some (ErrSys "mkdir" d)), (fs w). destruct w.
    split; [reflexivity|]. split; [now apply new_dirs_same | discriminate].
  - destruct (IH w) as (r1 & f1 & E1 & H1 & Hok1).
    rewrite (bind_run _ _ _ _ _ E1).
    destruct r1 as [err|].
    { exists (Some err), f1.
      split; [reflexivity|]. split; [now apply new_dirs_cons | discriminate]. }
    run_proc.
    destruct (f1 !! d) as [[|content r0 w0]|] eqn:El1; simpl.
    + exists None, f1.
      split; [reflexivity|]. split; [now apply new_dirs_cons | now intros _].
    + exists (Some (ErrSys "mkdir" d)), f1.
      split; [reflexivity|]. split; [now apply new_dirs_cons | discriminate].
    + destruct (may_create env d); simpl.
      * exists None, (<[d := Dir]> f1).
        split; [reflexivity|]. split; [|intros _; apply lookup_insert_eq].
        intros path. destruct (decide (path = d)) as [->|Hne].
        -- right. split; [now left|]. split; [exact El | apply lookup_insert_eq].
        -- rewrite lookup_insert_ne by congruence.
           destruct (H1 path) as [E|(Hin & Hn & Hd)]; [now left|].
           right. split; [now right | now split].
      * exists (Some (ErrSys "mkdir" d)), f1.
        split; [reflexivity|]. split; [now apply new_dirs_cons | discriminate].
Qed.

Lemma MkdirAll_run (env : Env) (path : gostring) (w : World) :
  exists r f',
    MkdirAll env path w = (inl r, mkWorld f' (PATH w) (trace w))
    /\ new_dirs (mkdir_chain path) (fs w) f'
    /\ (r = None -> is_directory f' path).
Proof.
  unfold MkdirAll, is_directory. destruct path as [|c path].
  { exists (Some (ErrSys "mkdir" [])), (fs w). destruct w.
    split; [reflexivity|]. split; [now apply new_dirs_same | discriminate]. }
  cbn [is_empty].
  destruct (mkdir_all_run env (mkdir_chain (c :: path)) w)
    as (r & f' & E & H & Hok).
  exists r, f'. split; [exact E|]. split; [exact H|].
  intros Hr. specialize (Hok Hr).
  destruct (mkdir_chain (c :: path)); [discriminate | exact Hok].
Qed.

Lemma mkdir_MkdirAll (env : Env) (d : gostring) :
  at_most_mkdir d (MkdirAll env d).
Proof.
  intros w w' r E.
  destruct (MkdirAll_run env d w) as (r' & f' & E' & H & _).
  rewrite E' in E. injection E as _ <-. exact H.
Qed.

Lemma mkdir_bind_unchanged {A B} (d : gostring) (c : Proc A) (k : A -> Proc B) :
  fs_unchanged c -> (forall a, at_most_mkdir d (k a)) -> at_most_mkdir d (c ≫= k).
Proof.
  intros Hc Hk w w' r E. unfold mbind, proc_bind in E.
  destruct (c w) as [[a|code] w1] eqn:Ec.
  - rewrite <- (Hc _ _ _ Ec). eapply Hk; eauto.
  - injection E as _ <-. apply new_dirs_same. eapply Hc; eauto.
Qed.

Lemma mkdir_then_unchanged {A B} (d : gostring) (c : Proc A) (k : A -> Proc B) :
  at_most_mkdir d c -> (forall a, fs_unchanged (k a)) -> at_most_mkdir d (c ≫= k).
Proof.
  intros Hc Hk w w' r E. unfold mbind, proc_bind in E.
  destruct (c w) as [[a|code] w1] eqn:Ec.
  - rewrite (Hk _ _ _ _ E). eapply Hc; eauto.
  - injection E as _ <-. eapply Hc; eauto.
Qed.

Lemma unchanged_at_most_mkdir {A} (d : gostring) (c : Proc A) :
  fs_unchanged c -> at_most_mkdir d c.
Proof. intros H w w' r E. apply new_dirs_same. eapply H; eauto. Qed.

Lemma mkdir_main_plan (env : Env) (flags : Flags) :
  at_most_mkdir (download_dir env flags) (main_plan env flags).
Proof.
  unfold main_plan, log.
  apply mkdir_bind_unchanged; [apply unchanged_main_version|]. intros version.
  apply mkdir_bind_unchanged; [apply unchanged_getInstalledGoVersion|].
  intros installed.
  destruct (match installed with inl v => eqb v version | inr _ => false end).
  { apply unchanged_at_most_mkdir.
    apply unchanged_bind; auto with unchanged. }
  apply mkdir_bind_unchanged; [auto with unchanged|]. intros [goos goarch].
  apply mkdir_then_unchanged; [apply mkdir_MkdirAll|]. intros r.
  repeat (apply unchanged_bind; [auto with unchanged|]; intros _).
  auto with unchanged.
Qed.

(** [main] up to the dry-run test removes no entry and changes none. *)
Lemma keeps_main_plan (env : Env) (flags : Flags) :
  keeps_entries (main_plan env flags).
Proof.
  intros w w' r E path n Hl.
  destruct (mkdir_main_plan env flags w w' r E path) as [->|(_ & Hnone & _)];
    [assumption | congruence].
Qed.

End Effects.

(** ** Dry run *)

(** A dry run changes nothing in the file system except that it may create
    the download directory and parents of it. *)
Lemma main_dry_run_effect (env : Env) (flags : Flags) (w : World) :
  dryRunFlag flags = true ->
  new_dirs (mkdir_chain (download_dir env flags)) (fs w) (fs (main env flags w).2).
Proof.
  intros Hdry.
  assert (H : at_most_mkdir (download_dir env flags) (main env flags)).
  { unfold main. rewrite Hdry.
    apply mkdir_then_unchanged; [apply mkdir_main_plan|].
    intros p. apply unchanged_printPlan. }
  destruct (main env flags w) as [r w'] eqn:E. exact (H _ _ _ E).
Qed.

(** C3 fails on the code: with a download directory that does not exist
    yet, a dry run prints the plan and has created the directory:
    [os.MkdirAll] runs before the dry-run flag is tested. *)
Lemma main_dry_run_creates_download_dir :
  fs empty_world !! ("/tmp/fresh" : gostring) = None
  /\ (main env_linux flags_dry_run empty_world).1 = inl tt
  /\ fs (main env_linux flags_dry_run empty_world).2 !! ("/tmp/fresh" : gostring)
     = Some Dir.
Proof. repeat (split; [vm_compute; reflexivity|]); vm_compute; reflexivity. Qed.

(** ** The archive *)

Lemma main_archive_existing (env : Env) (p : Plan) (w : World) (n : node) :
  fs w !! tarPath p = Some n ->
  main_archive env p w
  = (inl tt, with_events w
       [Stdout ("[go-updater] " ++ ("Using existing archive: " ++ tarPath p) ++ [nl])]).
Proof.
  intros Hl. unfold main_archive, Stat, log. run_proc. now rewrite Hl.
Qed.

Lemma downloadFile_bad_status (env : Env) (url toPath : gostring)
    (w wc : World) (status : Z) (body : gostring) :
  Create env toPath w = (inl None, wc) ->
  valid_url env url = true ->
  http_get env url = inl (status, body) ->
  status <> 200%Z ->
  downloadFile env url toPath w
  = (inl (Some (ErrDownloadFailed url status)), with_events wc [HttpGet url])
  /\ exists r, fs wc !! toPath = Some (File [] r true).
Proof.
  intros Hc Hu Hg Hs. split.
  - unfold downloadFile. rewrite (bind_run _ _ _ _ _ Hc), Hu. simpl.
    run_proc. rewrite Hg.
    destruct (Z.eqb_spec status 200) as [|_]; [contradiction|]. reflexivity.
  - unfold Create in Hc. revert Hc. run_proc.
    destruct (fs w !! toPath) as [[|c r []]|]; try discriminate.
    + intros [= <-]. simpl. exists r. apply lookup_insert_eq.
    + destruct (may_create env toPath); [|discriminate].
      intros [= <-]. simpl. exists true. apply lookup_insert_eq.
Qed.

(** C10: when [downloadFile] has created the destination file and the
    response status is not 200, it returns the download error and the
    destination is left as an empty file; a later run that finds this file
    at its archive path does not download: it logs "Using existing archive"
    and goes on to install from it. *)
Theorem failed_download_is_reused (env : Env) (url toPath : gostring)
    (w wc : World) (status : Z) (body : gostring) :
  Create env toPath w = (inl None, wc) ->
  valid_url env url = true ->
  http_get env url = inl (status, body) ->
  status <> 200%Z ->
  let failed := downloadFile env url toPath w in
  failed.1 = inl (Some (ErrDownloadFailed url status))
  /\ (exists r, fs failed.2 !! toPath = Some (File [] r true))
  /\ forall (env' : Env) (flags : Flags) (w1 w2 : World) (p : Plan),
       dryRunFlag flags = false ->
       fs w1 !! toPath = fs failed.2 !! toPath ->
       main_plan env' flags w1 = (inl p, w2) ->
       tarPath p = toPath ->
       main env' flags w1
       = main_install env' flags p
           (with_events w2
              [Stdout ("[go-updater] Using existing archive: " ++ toPath ++ [nl])]).
Proof.
  intros Hc Hu Hg Hs failed. subst failed.
  destruct (downloadFile_bad_status env url toPath w wc status body Hc Hu Hg Hs)
    as [-> [r Hl]].
  simpl. split; [reflexivity|]. split; [now exists r|].
  intros env' flags w1 w2 p Hdry Hleft Hplan Htar.
  rewrite Hl in Hleft.
  pose proof (keeps_main_plan env' flags w1 w2 _ Hplan _ _ Hleft) as Hl2.
  unfold main. rewrite (bind_run _ _ _ _ _ Hplan), Hdry.
  rewrite <- Htar in Hl2 |- *.
  now rewrite (bind_run _ _ _ _ _ (main_archive_existing env' p w2 _ Hl2)).
Qed.

(** C10 at a server that answers 404. *)
Lemma failed_download_is_reused_witness :
  (downloadFile env_linux archive_url archive_path empty_world).1
  = inl (Some (ErrDownloadFailed archive_url 404))
  /\ exists r,
       fs (downloadFile env_linux archive_url archive_path empty_world).2
         !! archive_path = Some (File [] r true).
Proof.
  destruct (failed_download_is_reused env_linux archive_url archive_path
              empty_world
              (mkWorld {[ archive_path := File [] true true ]} "/usr/bin" [])
              404 [] eq_refl eq_refl eq_refl ltac:(lia))
    as (H1 & H2 & _).
  split; assumption.
Defined.

(* ===================================================================== *)
(** * SystemPathInstaller                                                 *)
(* ===================================================================== *)

Lemma runAsRoot_returns (env : Env) (cmd : gostring) (args : list gostring)
    (w : World) :
  exists r w', runAsRoot env cmd args w = (inl r, w').
Proof.
  unfold runAsRoot, Run. run_proc. case_matches; eexists; eexists; reflexivity.
Qed.

(** Once the staged content is written, every way out of
    [ensureSystemPath] removes the temporary file. *)
Lemma ensureSystemPath_removes_staging_file (env : Env) (w : World)
    (tmpPath : gostring) :
  temp_name env (staging_pattern env) = Some tmpPath ->
  write_ok env tmpPath = true ->
  fs (ensureSystemPath env w).2 !! tmpPath = None.
Proof.
  unfold staging_pattern, ensureSystemPath. intros Ht Hw.
  destruct (eqb (GOOS env) "darwin");
    unfold CreateTemp, Write, Remove, log; rewrite Ht; run_proc;
    rewrite lookup_insert_eq, Hw; simpl;
    match goal with |- context [runAsRoot env ?c ?a ?w1] =>
      destruct (runAsRoot_returns env c a w1) as ([e|] & w2 & ->) end; simpl;
    try apply lookup_delete_eq;
    match goal with |- context [runAsRoot env ?c ?a ?w1] =>
      destruct (runAsRoot_returns env c a w1) as ([e'|] & w3 & ->) end; simpl;
    apply lookup_delete_eq.
Qed.

(** C5 fails on the code: when writing the staged content fails, on either
    platform, [ensureSystemPath] returns the error and the temporary file
    is still there. *)
Lemma ensureSystemPath_write_failure_keeps_staging_file :
  (ensureSystemPath (env_disk_full "linux") empty_world).1
    = inl (Some (ErrSys "write" "/tmp/golang-path-1"))
  /\ fs (ensureSystemPath (env_disk_full "linux") empty_world).2
       !! ("/tmp/golang-path-1" : gostring) = Some (File [] true true)
  /\ (ensureSystemPath (env_disk_full "darwin") empty_world).1
    = inl (Some (ErrSys "write" "/tmp/golang-path-1"))
  /\ fs (ensureSystemPath (env_disk_full "darwin") empty_world).2
       !! ("/tmp/golang-path-1" : gostring) = Some (File [] true true).
Proof. repeat (split; [vm_compute; reflexivity|]); vm_compute; reflexivity. Qed.

(** Two runs against a server that answers 404: the first leaves the empty
    archive behind, the second makes no network call and unpacks it. *)
Example second_run_reuses_leftover_archive :
  let run1 := main env_linux flags_pinned empty_world in
  let run2 := main env_linux flags_pinned (mkWorld (fs run1.2) "/usr/bin" []) in
  run1.1 = inr 1
  /\ fs run1.2 !! archive_path = Some (File [] true true)
  /\ network_calls (trace run2.2) = []
  /\ In (Exec ["tar" : gostring; "-C" : gostring; "/usr/local" : gostring;
               "-xzf" : gostring; archive_path])
        (trace run2.2).
Proof.
  cbv zeta.
  split; [vm_compute; reflexivity|].
  split; [vm_compute; reflexivity|].
  split; [vm_compute; reflexivity|].
  vm_compute. tauto.
Qed.

(* ===================================================================== *)
(** * Further properties                                                *)
(* ===================================================================== *)

Section TrimFacts.

Lemma space_byte_in (c : ascii) (enc : gostring) :
  In enc white_space -> In c enc -> space_byte c = true.
Proof.
  intros He Hc. unfold space_byte. apply existsb_exists. exists enc.
  split; [exact He|]. apply existsb_exists. exists c.
  split; [exact Hc | apply Ascii.eqb_refl].
Qed.


Lemma HasPrefix_cons_inv (s enc : gostring) (x : ascii) :
  HasPrefix s (x :: enc) = true -> exists t, s = x :: t /\ HasPrefix t enc = true.
Proof.
  destruct s as [|c t]; simpl; [discriminate|].
  intros [Hc H]%andb_prop. apply Ascii.eqb_eq in Hc as ->. now exists t.
Qed.

Lemma encoding_reported (s enc : gostring) (k : nat) (bytes : gostring) :
  (forall c, In c enc -> space_byte c = true) ->
  HasPrefix s enc = true -> length enc = S k ->
  exists x t q, s = x :: t /\ length q = k /\ HasPrefix t q = true
                /\ all_space_bytes (x :: q).
Proof.
  intros Hb Hp Hl. destruct enc as [|x q]; [discriminate|].
  apply HasPrefix_cons_inv in Hp as (t & -> & Ht).
  exists x, t, q. repeat split; [now injection Hl | exact Ht |].
  apply List.Forall_forall. intros c Hc. now apply Hb.
Qed.

Lemma space_width_reports : reports_spaces space_width.
Proof.
  intros s k H. unfold space_width in H.
  destruct (find (HasPrefix s) white_space) as [enc|] eqn:E; [|discriminate].
  apply find_some in E as [Hin Hp].
  apply (encoding_reported s enc k enc); auto.
  intros c Hc. now apply (space_byte_in c enc).
Qed.

Lemma space_width_last_reports : reports_spaces space_width_last.
Proof.
  intros s k H. unfold space_width_last in H.
  destruct (find _ white_space) as [enc|] eqn:E; [|discriminate].
  apply find_some in E as [Hin Hp].
  apply (encoding_reported s (rev enc) k enc); auto.
  - intros c Hc. apply in_rev in Hc. now apply (space_byte_in c enc).
  - now rewrite length_rev.
Qed.

(** [drop_spaces] drops bytes of white-space encodings only. *)
Lemma drop_spaces_only_spaces (width : gostring -> nat) (s : gostring) :
  reports_spaces width ->
  forall skip q,
    length q = skip -> HasPrefix s q = true -> all_space_bytes q ->
    exists pre, s = pre ++ drop_spaces width skip s /\ all_space_bytes pre.
Proof.
  intros Hw. induction s as [|c t IH]; intros skip q Hl Hp Hq.
  - exists []. split; [reflexivity | constructor].
  - simpl. destruct skip as [|k].
    + destruct (width (c :: t)) as [|k] eqn:E.
      * exists []. split; [reflexivity | constructor].
      * destruct (Hw _ _ E) as (x & t' & q' & Es & Hl' & Hp' & Hq').
        injection Es as <- <-. inversion Hq' as [|? ? Hx Hq'']; subst.
        destruct (IH (length q') q' eq_refl Hp' Hq'') as (pre & Epre & Hpre).
        exists (c :: pre). split; [simpl; now f_equal | now constructor].
    + destruct q as [|x q']; [discriminate|].
      apply HasPrefix_cons_inv in Hp as (t' & Es & Hp').
      injection Es as -> <-. inversion Hq as [|? ? Hx Hq']; subst.
      destruct (IH k q' ltac:(now injection Hl) Hp' Hq') as (pre & Epre & Hpre).
      exists (x :: pre). split; [simpl; now f_equal | now constructor].
Qed.

(** [strings.TrimSpace] cuts bytes of white space off both ends and
    nothing else. *)
Lemma TrimSpace_middle (s : gostring) :
  exists a b, s = a ++ TrimSpace s ++ b
              /\ all_space_bytes a /\ all_space_bytes b.
Proof.
  unfold TrimSpace, TrimRightSpace, TrimLeftSpace.
  destruct (drop_spaces_only_spaces space_width s space_width_reports 0 []
              eq_refl eq_refl ltac:(constructor)) as (a & Ea & Ha).
  set (u := drop_spaces space_width 0 s) in *.
  destruct (drop_spaces_only_spaces space_width_last (rev u)
              space_width_last_reports 0 [] eq_refl
              ltac:(now destruct (rev u)) ltac:(constructor))
    as (rb & Eb & Hb).
  exists a, (rev rb). split; [|split; [exact Ha|]].
  - rewrite Ea at 1. f_equal.
    rewrite <- (rev_involutive u) at 1. rewrite Eb at 1.
    now rewrite rev_app_distr.
  - apply List.Forall_forall. intros c Hc. apply in_rev in Hc.
    unfold all_space_bytes in Hb. rewrite List.Forall_forall in Hb. now apply Hb.
Qed.

(** The result of [strings.TrimSpace] does not end with white space. *)
Lemma TrimSpace_last (s : gostring) :
  TrimSpace s = [] \/ space_width_last (rev (TrimSpace s)) = 0.
Proof.
  unfold TrimSpace, TrimRightSpace. rewrite rev_involutive.
  destruct (drop_spaces_head space_width_last (rev (TrimLeftSpace s)) 0) as [E|E].
  - left. now rewrite E.
  - now right.
Qed.

Lemma TrimSpace_keeps_byte (s : gostring) (c : ascii) :
  In c s -> space_byte c = false -> TrimSpace s <> [].
Proof.
  intros Hin Hc E. destruct (TrimSpace_middle s) as (a & b & Es & Ha & Hb).
  rewrite E in Es. simpl in Es. rewrite Es in Hin.
  apply in_app_or in Hin.
  assert (Hall : forall l, all_space_bytes l -> In c l -> False).
  { intros l Hl Hi. unfold all_space_bytes in Hl.
    rewrite List.Forall_forall in Hl. rewrite (Hl _ Hi) in Hc. discriminate. }
  destruct Hin; eauto.
Qed.

End TrimFacts.

Lemma prefixed_trims_nonempty (f : gostring) :
  HasPrefix f "go" = true -> TrimSpace f <> [].
Proof.
  intros H. apply HasPrefix_inv in H as [t ->].
  apply (TrimSpace_keeps_byte _ "g"%char); [now left | reflexivity].
Qed.

Lemma clean_prefixed_well_formed (f : gostring) :
  HasPrefix f "go" = true -> well_formed_token (cleanVersionInput f).
Proof.
  intros H. destruct (cleanVersionInput_shape f) as [[E _]|[_ Hw]]; [|exact Hw].
  now apply prefixed_trims_nonempty in H.
Qed.

Lemma parseGoVersionOutput_token (output v : gostring) :
  parseGoVersionOutput output = inl v -> well_formed_token v.
Proof.
  intros H. unfold parseGoVersionOutput in H. cbv zeta in H.
  destruct ((3 <=? length (Fields (TrimSpace output)))%nat
            && HasPrefix (nth 2 (Fields (TrimSpace output)) []) "go") eqn:E.
  - injection H as <-. apply andb_prop in E as [_ E].
    now apply clean_prefixed_well_formed.
  - rewrite scan_tokens_find in H.
    destruct (find usable_token _) as [f|] eqn:Ef; [|discriminate].
    injection H as <-. apply find_some in Ef as [_ Hu].
    unfold usable_token in Hu. apply andb_prop in Hu as [Hp _].
    now apply clean_prefixed_well_formed.
Qed.

(** X1: Whatever [parseGoVersionOutput] returns without error is "go"
    followed by allowed bytes only, possibly none, and normalising it again
    changes nothing.  It is the bare prefix "go" only when the third field
    of the output begins with "go": a version taken from another field is
    longer than the prefix. *)
Theorem parseGoVersionOutput_well_formed (output v : gostring) :
  parseGoVersionOutput output = inl v ->
  well_formed_token v /\ cleanVersionInput v = v
  /\ (v = ("go" : gostring) ->
      HasPrefix (nth 2 (Fields (TrimSpace output)) []) "go" = true).
Proof.
  intros H. pose proof (parseGoVersionOutput_token _ _ H) as Hw.
  split; [exact Hw|]. split; [now apply clean_well_formed|].
  intros ->. unfold parseGoVersionOutput in H. cbv zeta in H.
  destruct ((3 <=? length (Fields (TrimSpace output)))%nat
            && HasPrefix (nth 2 (Fields (TrimSpace output)) []) "go") eqn:E.
  - now apply andb_prop in E as [_ E].
  - rewrite scan_tokens_find in H.
    destruct (find usable_token _) as [f|] eqn:Ef; [|discriminate].
    apply find_some in Ef as [_ Hu]. unfold usable_token in Hu.
    apply andb_prop in Hu as [_ Hl]. injection H as H. rewrite H in Hl.
    discriminate.
Qed.

Lemma parseGoVersionOutput_well_formed_witness :
  well_formed_token "go1.22.6" /\ cleanVersionInput "go1.22.6" = "go1.22.6".
Proof.
  destruct (parseGoVersionOutput_well_formed
              "go version go1.22.6 linux/amd64" "go1.22.6" eq_refl)
    as (H1 & H2 & _).
  split; assumption.
Defined.






(** X3: A bare version number gets the prefix, and with or without the prefix
    the same token comes out. *)
Theorem cleanVersionInput_adds_prefix (rest : gostring) :
  rest <> [] -> all_allowed rest -> HasPrefix rest "go" = false ->
  cleanVersionInput rest = "go" ++ rest
  /\ cleanVersionInput ("go" ++ rest) = "go" ++ rest.
Proof.
  intros Hne Hall Hp. split.
  - unfold cleanVersionInput. rewrite (TrimSpace_allowed _ Hall).
    rewrite (Fields_allowed _ Hne Hall), Hp, clean_loop_0.
    assert (E : is_empty rest = false) by (destruct rest; easy).
    rewrite E. change (firstn 2 ("go" ++ rest)) with ("go" : gostring).
    change (skipn 2 ("go" ++ rest)) with rest. now rewrite keep_allowed_id.
  - apply clean_well_formed. now exists rest.
Qed.

Lemma cleanVersionInput_adds_prefix_witness :
  cleanVersionInput "1.25.1" = "go" ++ "1.25.1"
  /\ cleanVersionInput ("go" ++ "1.25.1") = "go" ++ "1.25.1".
Proof.
  apply cleanVersionInput_adds_prefix.
  - discriminate.
  - vm_compute. repeat constructor.
  - reflexivity.
Defined.

(** X4: [resolveTarget] accepts exactly two operating systems and five
    architecture names, returns the operating system as it is and the
    architecture under one of its three canonical names, and looks at the
    operating system first. *)
Theorem resolveTarget_allow_list (env : Env) :
  match resolveTarget env with
  | inl (os, arch) =>
      os = GOOS env
      /\ (os = ("linux" : gostring) \/ os = ("darwin" : gostring))
      /\ ((arch = GOARCH env
           /\ (arch = ("amd64" : gostring) \/ arch = ("arm64" : gostring)
               \/ arch = ("386" : gostring)))
          \/ (GOARCH env = ("x86_64" : gostring) /\ arch = ("amd64" : gostring))
          \/ (GOARCH env = ("aarch64" : gostring) /\ arch = ("arm64" : gostring)))
  | inr err =>
      (err = ErrUnsupportedOS (GOOS env)
       /\ GOOS env <> ("linux" : gostring) /\ GOOS env <> ("darwin" : gostring))
      \/ (err = ErrUnsupportedArch (GOARCH env)
          /\ (GOOS env = ("linux" : gostring) \/ GOOS env = ("darwin" : gostring))
          /\ ~ In (GOARCH env)
                 ["amd64" : gostring; "arm64" : gostring; "386" : gostring;
                  "x86_64" : gostring; "aarch64" : gostring])
  end.
Proof.
  unfold resolveTarget, eqb. cbv zeta.
  repeat case_bool_decide; cbn [orb]; try solve [intuition congruence].
  all: try (right; repeat split; try tauto;
            cbn [In]; intuition congruence).
Qed.

Lemma ReadString_prefix (d : ascii) (s : gostring) :
  exists rest, s = ReadString d s ++ rest.
Proof.
  induction s as [|c t [rest IH]]; [now exists []|]. simpl.
  destruct (Ascii.eqb c d).
  - now exists t.
  - exists rest. simpl. now f_equal.
Qed.

Lemma ReadString_delim (d : ascii) (s : gostring) :
  (exists p, ReadString d s = p ++ [d] /\ ~ In d p)
  \/ ~ In d (ReadString d s).
Proof.
  induction s as [|c t IH]; [now right|]. simpl.
  destruct (Ascii.eqb_spec c d) as [->|Hne].
  - left. now exists [].
  - destruct IH as [(p & -> & Hp)|Hn].
    + left. exists (c :: p). split; [reflexivity|].
      intros [E|Hin]; [now apply Hne | now apply Hp].
    + right. intros [E|Hin]; [now apply Hne | now apply Hn].
Qed.

Lemma delim_is_last (d : ascii) (l1 l2 p : gostring) :
  l1 ++ d :: l2 = p ++ [d] -> ~ In d p -> l2 = [].
Proof.
  revert p. induction l1 as [|c l1 IH]; intros [|x p] E Hp; simpl in E.
  - now injection E.
  - injection E as <- _. exfalso. apply Hp. now left.
  - injection E as _ E. destruct l1; discriminate.
  - injection E as _ E. apply (IH p E). intros Hin. apply Hp. now right.
Qed.

Lemma space_width_last_at_space (c : ascii) (x : gostring) :
  In [c] white_space -> space_width_last (c :: x) <> 0.
Proof.
  intros Hin E. apply space_width_last_0 in E.
  pose proof (find_none _ _ E _ Hin) as H. simpl in H.
  now rewrite Ascii.eqb_refl in H.
Qed.

(** A trimmed first line holds no line feed. *)
Lemma trimmed_line_has_no_line_feed (s : gostring) :
  ~ In nl (TrimSpace (ReadString nl s)).
Proof.
  set (line := ReadString nl s). intros Hin.
  destruct (TrimSpace_middle line) as (a & b & Es & _ & _).
  destruct (ReadString_delim nl s) as [(p & Ep & Hp)|Hn].
  - fold line in Ep. apply in_split in Hin as (x & y & Ev).
    rewrite Ev in Es. rewrite Ep in Es.
    replace (a ++ (x ++ nl :: y) ++ b) with ((a ++ x) ++ nl :: (y ++ b)) in Es
      by (now rewrite <- !app_assoc).
    symmetry in Es. apply delim_is_last in Es; [|exact Hp].
    apply app_eq_nil in Es as [-> _].
    destruct (TrimSpace_last line) as [E|E].
    + rewrite Ev in E. now destruct x.
    + rewrite Ev, rev_app_distr in E. simpl in E.
      apply space_width_last_at_space in E; [exact E|]. vm_compute. tauto.
  - apply Hn. fold line. rewrite Es. apply in_or_app. right.
    apply in_or_app. now left.
Qed.

Lemma fetchLatestVersion_cases (env : Env) (w : World) :
  (fetchLatestVersion env w).2 = with_events w [HttpGet vURL]
  /\ match (fetchLatestVersion env w).1 with
     | inl (inl ver) =>
         (exists body, http_get env vURL = inl (200%Z, body))
         /\ HasPrefix ver "go" = true
         /\ space_width ver = 0 /\ space_width_last (rev ver) = 0
         /\ ~ In nl ver
         /\ length ver <= 1024
     | inl (inr err) =>
         http_get env vURL = inr err
         \/ (exists status body,
               http_get env vURL = inl (status, body) /\ status <> 200%Z
               /\ err = ErrUnexpectedStatus status vURL)
         \/ (exists ver, err = ErrInvalidVersion ver)
     | inr _ => False
     end.
Proof.
  unfold fetchLatestVersion, mbind, proc_bind, emit, mret, proc_ret.
  destruct (http_get env vURL) as [[status body]|err];
    [|split; [reflexivity | now left]].
  destruct (Z.eqb_spec status 200) as [->|Hs]; cbn [negb];
    [|split; [reflexivity | right; left; eauto]].
  cbv zeta. set (line := ReadString nl (firstn 1024 body)).
  destruct (is_empty (TrimSpace line)) eqn:Ee; cbn [orb];
    [split; [reflexivity | right; right; eauto]|].
  destruct (HasPrefix (TrimSpace line) "go") eqn:Ep; cbn [negb];
    [|split; [reflexivity | right; right; eauto]].
  split; [reflexivity|].
  assert (Hne : TrimSpace line <> []) by (now destruct (TrimSpace line)).
  cbn [fst snd]. split; [eauto|]. split; [exact Ep|].
  split; [now destruct (TrimSpace_head line)|].
  split; [now destruct (TrimSpace_last line)|].
  split; [apply trimmed_line_has_no_line_feed|].
  destruct (TrimSpace_middle line) as (a & b & Es & _ & _).
  destruct (ReadString_prefix nl (firstn 1024 body)) as [rest Er].
  fold line in Er.
  pose proof (firstn_le_length 1024 body) as Hl.
  rewrite Er, Es in Hl. rewrite !length_app in Hl. lia.
Qed.

(** X5: [fetchLatestVersion] makes one request and nothing else; a version it
    returns comes from a 200 response, begins with "go", has no white space
    around it, holds no line feed and is at most 1024 bytes long. *)
Theorem fetchLatestVersion_result (env : Env) (w : World) :
  (fetchLatestVersion env w).2 = with_events w [HttpGet vURL]
  /\ match (fetchLatestVersion env w).1 with
     | inl (inl ver) =>
         (exists body, http_get env vURL = inl (200%Z, body))
         /\ HasPrefix ver "go" = true
         /\ space_width ver = 0 /\ space_width_last (rev ver) = 0
         /\ ~ In nl ver
         /\ length ver <= 1024
     | inl (inr err) =>
         http_get env vURL = inr err
         \/ (exists status body,
               http_get env vURL = inl (status, body) /\ status <> 200%Z
               /\ err = ErrUnexpectedStatus status vURL)
         \/ (exists ver, err = ErrInvalidVersion ver)
     | inr _ => False
     end.
Proof. exact (fetchLatestVersion_cases env w). Qed.

Section Quiet.

Lemma quiet_ret {A} (P : event -> Prop) (a : A) : quiet P (mret a).
Proof.
  intros w w' r [= _ <-]. split; [reflexivity|]. exists [].
  now rewrite app_nil_r.
Qed.

Lemma quiet_exit {A} (P : event -> Prop) (code : nat) : quiet P (@exit A code).
Proof.
  intros w w' r [= _ <-]. split; [reflexivity|]. exists [].
  now rewrite app_nil_r.
Qed.

Lemma quiet_get_fs (P : event -> Prop) : quiet P get_fs.
Proof.
  intros w w' r [= _ <-]. split; [reflexivity|]. exists [].
  now rewrite app_nil_r.
Qed.

Lemma quiet_set_fs (P : event -> Prop) (f : gmap gostring node) :
  quiet P (set_fs f).
Proof.
  intros w w' r [= _ <-]. split; [reflexivity|]. exists [].
  simpl. now rewrite app_nil_r.
Qed.

Lemma quiet_emit (P : event -> Prop) (e : event) : P e -> quiet P (emit e).
Proof.
  intros He w w' r [= _ <-]. split; [reflexivity|]. exists [e].
  split; [reflexivity | now constructor].
Qed.

Lemma quiet_bind {A B} (P : event -> Prop) (c : Proc A) (k : A -> Proc B) :
  quiet P c -> (forall a, quiet P (k a)) -> quiet P (c ≫= k).
Proof.
  intros Hc Hk w w' r E. unfold mbind, proc_bind in E.
  destruct (c w) as [[a|code] w1] eqn:Ec.
  - destruct (Hc _ _ _ Ec) as (Hp1 & e1 & Ht1 & H1).
    destruct (Hk _ _ _ _ E) as (Hp2 & e2 & Ht2 & H2).
    split; [congruence|]. exists (e1 ++ e2).
    split; [rewrite Ht2, Ht1; now rewrite app_assoc | now apply Forall_app].
  - injection E as <- <-. eapply Hc; eauto.
Qed.

Lemma quiet_weaken {A} (P Q : event -> Prop) (c : Proc A) :
  (forall e, P e -> Q e) -> quiet P c -> quiet Q c.
Proof.
  intros HPQ Hc w w' r E. destruct (Hc _ _ _ E) as (Hp & evs & Ht & H).
  split; [exact Hp|]. exists evs. split; [exact Ht|].
  eapply Forall_impl; eauto.
Qed.

Lemma quiet_with_events {A} (P : event -> Prop) (c : Proc A) :
  (forall w, exists r evs, c w = (r, with_events w evs) /\ Forall P evs) ->
  quiet P c.
Proof.
  intros H w w' r E. destruct (H w) as (r' & evs & E' & HP).
  rewrite E' in E. injection E as _ <-. split; [reflexivity|]. now exists evs.
Qed.

Lemma quiet_must (P : event -> Prop) (err : option error) (context : gostring) :
  (forall e, P (Stderr context e)) -> quiet P (must err context).
Proof.
  intros HP. destruct err; simpl; [|apply quiet_ret].
  apply quiet_bind; [now apply quiet_emit | intros; apply quiet_exit].
Qed.

Lemma quiet_must_value {A} (P : event -> Prop) (r : A + error)
    (context : gostring) :
  (forall e, P (Stderr context e)) -> quiet P (must_value r context).
Proof.
  intros HP. destruct r; simpl; [apply quiet_ret|].
  apply quiet_bind; [now apply quiet_emit | intros; apply quiet_exit].
Qed.

Lemma quiet_log (P : event -> Prop) (msg : gostring) :
  (forall t, P (Stdout t)) -> quiet P (log msg).
Proof. intros HP. now apply quiet_emit. Qed.

Lemma quiet_MkdirAll (P : event -> Prop) (env : Env) (path : gostring) :
  quiet P (MkdirAll env path).
Proof.
  intros w w' r E. destruct (MkdirAll_run env path w) as (r' & f' & E' & _).
  rewrite E' in E. injection E as _ <-. split; [reflexivity|]. exists [].
  simpl. now rewrite app_nil_r.
Qed.

End Quiet.

(** ** The version probe *)

Lemma probe_cases (env : Env) (bin : gostring) (w : World) :
  exists r, probe env bin w
            = (inl r, with_events w [Exec [bin; "version" : gostring]])
            /\ match r with Some v => well_formed_token v | None => True end.
Proof.
  unfold probe, CombinedOutput. run_proc.
  destruct (command_output env _ (fs w)) as [out []]; simpl;
    [|now exists None].
  destruct (parseGoVersionOutput out) as [v|e] eqn:Ep; simpl.
  - exists (Some v). split; [reflexivity|]. now apply parseGoVersionOutput_token in Ep.
  - now exists None.
Qed.

Lemma getInstalledGoVersion_probes (env : Env) (w : World) :
  exists r evs,
    getInstalledGoVersion env w = (inl r, with_events w evs)
    /\ Forall is_probe evs /\ length evs <= 2
    /\ match r with
       | inl v => well_formed_token v
       | inr e => e = ErrNoInstalledGo
       end.
Proof.
  assert (Hprobe : forall bin, is_probe (Exec [bin; "version" : gostring]))
    by (intros bin; now exists bin).
  assert (Hsecond : forall w1 : World,
    exists r evs,
      match LookPath env "go" with
      | Some path =>
          second ← probe env path;
          match second with
          | Some v => mret (inl v)
          | None => mret (inr ErrNoInstalledGo)
          end
      | None => mret (inr ErrNoInstalledGo)
      end w1 = (inl r, with_events w1 evs)
      /\ Forall is_probe evs /\ length evs <= 1
      /\ match r with
         | inl v => well_formed_token v
         | inr e => e = ErrNoInstalledGo
         end).
  { intros w1. destruct (LookPath env "go") as [path|].
    - destruct (probe_cases env path w1) as ([v|] & E & Hv);
        rewrite (bind_run _ _ _ _ _ E); eexists; eexists;
        (split; [reflexivity|]); repeat split; auto.
    - exists (inr ErrNoInstalledGo), []. unfold with_events.
      rewrite app_nil_r. destruct w1. repeat split; auto. }
  unfold getInstalledGoVersion.
  assert (Hst : Stat stdGo w
                = (inl (match fs w !! stdGo with
                        | Some n => inl n
                        | None => inr (ErrSys "stat" stdGo)
                        end), w)) by reflexivity.
  rewrite (bind_run _ _ _ _ _ Hst).
  destruct (fs w !! stdGo) as [[|content r wr]|]; cbv beta iota.
  1, 3: rewrite (bind_run (mret None) _ w w None eq_refl);
        destruct (Hsecond w) as (r' & evs & -> & Hp & Hl & Hr);
        exists r', evs; repeat split; auto; lia.
  destruct (probe_cases env stdGo w) as ([v|] & E & Hv);
    rewrite (bind_run _ _ _ _ _ E).
  - eexists; eexists. split; [reflexivity|]. repeat split; auto.
  - destruct (Hsecond (with_events w [Exec [stdGo; "version" : gostring]]))
      as (r' & evs & -> & Hp & Hl & Hr).
    exists r', ([Exec [stdGo; "version" : gostring]] ++ evs).
    split; [unfold with_events; simpl; now rewrite <- app_assoc|].
    split; [constructor; auto|]. split; [simpl; lia | exact Hr].
Qed.

(** X6: The version probe never ends the process, changes neither the file
    system nor PATH, runs at most two commands, each of the form
    [bin version], and returns a well-formed version token or the one
    error "no installed Go found". *)
Theorem getInstalledGoVersion_read_only (env : Env) (w : World) :
  exists r evs,
    getInstalledGoVersion env w = (inl r, with_events w evs)
    /\ Forall is_probe evs /\ length evs <= 2
    /\ match r with
       | inl v => well_formed_token v
       | inr e => e = ErrNoInstalledGo
       end.
Proof. exact (getInstalledGoVersion_probes env w). Qed.

(** X7: When the managed binary is a file, runs and prints a parseable
    version, that version is the result, and no other binary is looked
    for or run. *)
Theorem getInstalledGoVersion_prefers_managed (env : Env) (w : World)
    (content out v : gostring) (r wr : bool) :
  fs w !! stdGo = Some (File content r wr) ->
  command_output env [stdGo; "version" : gostring] (fs w) = (out, true) ->
  parseGoVersionOutput out = inl v ->
  getInstalledGoVersion env w
  = (inl (inl v), with_events w [Exec [stdGo; "version" : gostring]]).
Proof.
  intros Hl Hc Hp. unfold getInstalledGoVersion, probe, CombinedOutput, Stat.
  run_proc. rewrite Hl. simpl. simpl in Hc. rewrite Hc. simpl.
  rewrite Hp. reflexivity.
Qed.

Lemma getInstalledGoVersion_prefers_managed_witness :
  getInstalledGoVersion env_with_go world_with_go
  = (inl (inl ("go1.26.0" : gostring)),
     with_events world_with_go [Exec [stdGo; "version" : gostring]]).
Proof.
  apply (getInstalledGoVersion_prefers_managed env_with_go world_with_go
           [] "go version go1.26.0 linux/amd64" "go1.26.0" true true);
    reflexivity.
Defined.

(** ** The up-to-date check *)

(** X8: With the version given on the command line and the same version
    installed, [main] ends with status 0 after the probe and one line of
    output: no file is changed, PATH is left alone, no network call is made
    and no command other than the probe is run, whatever the other flags
    and the platform are. *)
Theorem main_up_to_date (env : Env) (flags : Flags) (w : World) :
  is_empty (TrimSpace (versionFlag flags)) = false ->
  up_to_date env w (cleanVersionInput (versionFlag flags)) = true ->
  let run := main env flags w in
  run.1 = inr 0
  /\ fs run.2 = fs w /\ PATH run.2 = PATH w
  /\ network_calls (trace run.2) = network_calls (trace w)
  /\ exists probes,
       Forall is_probe probes
       /\ trace run.2
          = trace w ++ probes
            ++ [Stdout ("[go-updater] Go is already up to date ("
                        ++ cleanVersionInput (versionFlag flags)
                        ++ "). Nothing to do." ++ [nl])].
Proof.
  intros Hb Hup run. subst run.
  pose proof (main_version_run env flags w) as Hv. rewrite Hb in Hv.
  destruct (getInstalledGoVersion_probes env w) as (r & evs & E & Hp & _ & _).
  unfold up_to_date in Hup. rewrite E in Hup. cbn [fst] in Hup.
  assert (Hrun : main env flags w
                 = (inr 0, with_events w (evs ++
                      [Stdout ("[go-updater] " ++ ("Go is already up to date ("
                          ++ cleanVersionInput (versionFlag flags)
                          ++ "). Nothing to do.") ++ [nl])]))).
  { unfold main, main_plan. apply bind_exit.
    rewrite (bind_run _ _ _ _ _ Hv), (bind_run _ _ _ _ _ E), Hup.
    unfold log. run_proc. unfold with_events. simpl. now rewrite <- app_assoc. }
  rewrite Hrun. cbn [fst snd with_events fs PATH trace].
  repeat split.
  - rewrite !network_calls_app. simpl. rewrite app_nil_r.
    assert (Hn : network_calls evs = []).
    { clear -Hp. induction Hp as [|e l [bin ->] _ IH]; [reflexivity | exact IH]. }
    now rewrite Hn, app_nil_r.
  - exists evs. split; [exact Hp|]. now rewrite <- !app_assoc.
Qed.

Lemma main_up_to_date_witness :
  (main env_with_go flags_pinned world_with_go).1 = inr 0
  /\ fs (main env_with_go flags_pinned world_with_go).2 = fs world_with_go.
Proof.
  destruct (main_up_to_date env_with_go flags_pinned world_with_go)
    as (H1 & H2 & _).
  - reflexivity.
  - vm_compute. reflexivity.
  - split; assumption.
Defined.

(** ** Dry run *)

Lemma quiet_main_plan (env : Env) (flags : Flags) :
  quiet dry_run_event (main_plan env flags).
Proof.
  unfold main_plan, main_version.
  apply quiet_bind.
  { destruct (is_empty _); [|apply quiet_ret].
    apply quiet_bind; [|intros; now apply quiet_must_value].
    apply quiet_with_events. intros w.
    destruct (fetchLatestVersion_run env w) as [r ->].
    eexists; eexists. split; [reflexivity|]. now repeat constructor. }
  intros version. apply quiet_bind.
  { apply quiet_with_events. intros w.
    destruct (getInstalledGoVersion_probes env w) as (r & evs & -> & Hp & _).
    eexists; eexists. split; [reflexivity|].
    eapply List.Forall_impl; [|exact Hp]. intros e [bin ->]. now exists bin. }
  intros installed.
  destruct (match installed with inl v => eqb v version | inr _ => false end).
  { apply quiet_bind; [now apply quiet_log | intros; apply quiet_exit]. }
  apply quiet_bind; [now apply quiet_must_value|]. intros [goos goarch].
  apply quiet_bind; [apply quiet_MkdirAll|]. intros r.
  apply quiet_bind; [now apply quiet_must|]. intros _.
  repeat (apply quiet_bind; [now apply quiet_log|]; intros _).
  apply quiet_ret.
Qed.

Lemma quiet_printPlan (version goos goarch url tarPath : gostring)
    (noPath system : bool) :
  quiet dry_run_event (printPlan version goos goarch url tarPath noPath system).
Proof.
  unfold printPlan, println.
  repeat (apply quiet_bind; [|intros _]); try now apply quiet_emit.
  destruct noPath; cbn [negb]; [now apply quiet_emit|].
  apply quiet_bind; [now apply quiet_emit|]. intros _.
  destruct system; [|apply quiet_ret].
  destruct (eqb goos "darwin"); now apply quiet_emit.
Qed.

(** X9: A dry run leaves PATH alone; the only change it can make to the
    file system is to create directories at paths that held nothing; it
    requests nothing but the latest version and runs no command but the
    version probe: it never downloads, removes or unpacks. *)
Theorem main_dry_run_side_effects (env : Env) (flags : Flags) (w : World) :
  dryRunFlag flags = true ->
  let run := main env flags w in
  PATH run.2 = PATH w
  /\ only_new_directories (fs w) (fs run.2)
  /\ exists evs, trace run.2 = trace w ++ evs /\ Forall dry_run_event evs.
Proof.
  intros Hdry run. subst run.
  assert (Hq : quiet dry_run_event (main env flags)).
  { unfold main. rewrite Hdry.
    apply quiet_bind; [apply quiet_main_plan | intros; apply quiet_printPlan]. }
  pose proof (main_dry_run_effect env flags w Hdry) as H.
  destruct (main env flags w) as [r w'] eqn:E.
  destruct (Hq _ _ _ E) as (Hp & evs & Ht & He). cbn [snd] in *.
  split; [exact Hp|]. split; [|now exists evs].
  eapply new_dirs_only, H.
Qed.

Lemma main_dry_run_side_effects_witness :
  PATH (main env_linux flags_dry_run empty_world).2 = PATH empty_world
  /\ only_new_directories (fs empty_world)
       (fs (main env_linux flags_dry_run empty_world).2)
  /\ exists evs,
       trace (main env_linux flags_dry_run empty_world).2
       = trace empty_world ++ evs
       /\ Forall dry_run_event evs.
Proof. apply main_dry_run_side_effects. reflexivity. Defined.

(** ** The plan *)

Lemma main_plan_result (env : Env) (flags : Flags) (w w' : World)
    (p : Plan) :
  main_plan env flags w = (inl p, w') ->
  resolveTarget env = inl (goos p, goarch p)
  /\ url p = "https://go.dev/dl/" ++ archive_name (version p) (goos p) (goarch p)
  /\ tarPath p = Join (download_dir env flags)
                      (archive_name (version p) (goos p) (goarch p))
  /\ is_directory (fs w') (download_dir env flags)
  /\ HasPrefix (version p) "go" = true
  /\ up_to_date env w (version p) = false
  /\ only_new_directories (fs w) (fs w').
Proof.
  intros H.
  assert (Hver : exists v w0,
             main_version env flags w = (inl v, w0) /\ fs w0 = fs w
             /\ HasPrefix v "go" = true).
  { pose proof (main_version_run env flags w) as Hv.
    destruct (is_empty (TrimSpace (versionFlag flags))) eqn:Hb.
    - pose proof (fetchLatestVersion_cases env w) as [_ Hf].
      destruct (fetchLatestVersion env w).1 as [[latest|e]|]; [| |contradiction].
      + exists latest, (with_events w [HttpGet vURL]).
        repeat split; [exact Hv | apply Hf].
      + unfold main_plan in H. rewrite (bind_exit _ _ _ _ _ Hv) in H. discriminate.
    - exists (cleanVersionInput (versionFlag flags)), w.
      repeat split; [exact Hv|].
      destruct (cleanVersionInput_shape (versionFlag flags)) as [[E _]|[_ Hw]].
      + rewrite E in Hb. discriminate.
      + now apply well_formed_all_allowed in Hw as (_ & _ & ->). }
  destruct Hver as (v & w0 & Hv & Hfs & Hgo).
  destruct (getInstalledGoVersion_probes env w0) as (r & evs & E & _).
  unfold main_plan in H.
  rewrite (bind_run _ _ _ _ _ Hv), (bind_run _ _ _ _ _ E) in H.
  assert (Hup : up_to_date env w v
                = match r with inl i => eqb i v | inr _ => false end).
  { rewrite (up_to_date_fs_only env w w0 v (eq_sym Hfs)).
    unfold up_to_date. now rewrite E. }
  destruct (match r with inl i => eqb i v | inr _ => false end).
  { revert H. unfold log. run_proc. discriminate. }
  destruct (resolveTarget env) as [[os arch]|err] eqn:Hres;
    [|revert H; unfold must_value; run_proc; discriminate].
  destruct (MkdirAll_run env (download_dir env flags)
              (mkWorld (fs w0) (PATH w0) (trace w0 ++ evs)))
    as (rm & f' & Em & Hnew & Hok).
  cbn [fs PATH trace] in Em, Hnew. rewrite Hfs in Hnew.
  unfold must_value in H.
  rewrite (bind_run (mret (os, arch)) _ _ _ _ eq_refl) in H. cbv beta iota in H.
  fold (download_dir env flags) in H. unfold with_events in H.
  rewrite (bind_run _ _ _ _ _ Em) in H.
  destruct rm as [err|]; [revert H; unfold must; run_proc; discriminate|].
  revert H. unfold must, log. run_proc. intros [= <- <-]. cbn [fs version goos goarch url tarPath].
  repeat split; auto. now apply new_dirs_only in Hnew.
Qed.

(** X10: When [main] gets as far as the dry-run test, the platform is one that
    [resolveTarget] accepts, the archive name is
    version.os-arch.tar.gz, the URL is that name under
    https://go.dev/dl/, the archive path is [filepath.Join] of the
    download directory and that name, the download directory is a
    directory, the version begins with "go" and differs from the installed
    one, and the file system differs from the initial one at most by
    directories at paths that held nothing. *)
Theorem main_plan_postcondition (env : Env) (flags : Flags) (w w' : World)
    (p : Plan) :
  main_plan env flags w = (inl p, w') ->
  resolveTarget env = inl (goos p, goarch p)
  /\ url p = "https://go.dev/dl/" ++ archive_name (version p) (goos p) (goarch p)
  /\ tarPath p = Join (download_dir env flags)
                      (archive_name (version p) (goos p) (goarch p))
  /\ is_directory (fs w') (download_dir env flags)
  /\ HasPrefix (version p) "go" = true
  /\ up_to_date env w (version p) = false
  /\ only_new_directories (fs w) (fs w').
Proof. exact (main_plan_result env flags w w' p). Qed.

Lemma main_plan_postcondition_witness :
  resolveTarget env_linux = inl ("linux" : gostring, "amd64" : gostring)
  /\ archive_url = "https://go.dev/dl/" ++ archive_name "go1.26.0" "linux" "amd64".
Proof.
  destruct (main_plan_postcondition env_linux flags_pinned empty_world
              (main_plan env_linux flags_pinned empty_world).2
              (mkPlan "go1.26.0" "linux" "amd64" archive_url archive_path))
    as (H1 & H2 & _).
  - vm_compute. reflexivity.
  - split; assumption.
Defined.

(** ** Privileged commands *)

(** X11: [runAsRoot] never ends the process and leaves PATH alone.  As root it
    runs the command as it is; otherwise, with sudo on PATH, it runs
    [sudo -v] and then the command behind sudo, and without sudo it runs
    nothing and changes nothing. *)
Theorem runAsRoot_commands (env : Env) (cmd : gostring) (args : list gostring)
    (w : World) :
  exists r w',
    runAsRoot env cmd args w = (inl r, w')
    /\ PATH w' = PATH w
    /\ trace w'
       = trace w ++
         (if isRoot env then [Exec (cmd :: args)]
          else match LookPath env "sudo" with
               | Some _ => [Exec ["sudo" : gostring; "-v" : gostring];
                            Exec (("sudo" : gostring) :: cmd :: args)]
               | None => []
               end)
    /\ (if isRoot env then True
        else match LookPath env "sudo" with
             | Some _ => True
             | None => r = Some ErrRequiresRoot /\ w' = w
             end).
Proof.
  unfold runAsRoot, Run. destruct (isRoot env).
  - run_proc. destruct (command_effect env (cmd :: args) (fs w)) as [f' ok].
    eexists; eexists. repeat split; easy.
  - destruct (LookPath env "sudo") as [path|].
    + run_proc.
      destruct (command_effect env _ (fs w)) as [f1 ok1]. simpl.
      destruct (command_effect env _ f1) as [f2 ok2]. simpl.
      eexists; eexists. repeat split; try easy. now rewrite <- app_assoc.
    + exists (Some ErrRequiresRoot), w. rewrite app_nil_r. repeat split.
Qed.

(** X12: Without root and without sudo the installation step runs no command
    and changes nothing: the run ends with status 1 and the "requires
    root" error, before anything is removed. *)
Theorem main_install_requires_root (env : Env) (flags : Flags) (p : Plan)
    (w : World) :
  isRoot env = false -> LookPath env "sudo" = None ->
  main_install env flags p w
  = (inr 1, with_events w
              [Stderr "remove previous /usr/local/go" ErrRequiresRoot]).
Proof.
  intros Hr Hs. unfold main_install, runAsRoot. rewrite Hr, Hs.
  reflexivity.
Qed.

Lemma main_install_requires_root_witness :
  main_install env_user flags_pinned
    (mkPlan "go1.26.0" "linux" "amd64" archive_url archive_path) empty_world
  = (inr 1, with_events empty_world
              [Stderr "remove previous /usr/local/go" ErrRequiresRoot]).
Proof. apply main_install_requires_root; reflexivity. Defined.

(** ** What [ensureUserPath] writes *)

Lemma ensure_effect_shape (env : Env) (f : gmap gostring node) :
  ensure_effect env f = f
  \/ exists home name,
       UserHomeDir env = inl home /\ In name (profile_candidates env)
       /\ ((exists content r,
              f !! Join home name = Some (File content r true)
              /\ ensure_effect env f
                 = <[Join home name
                     := File (content ++ profile_block profile_line) r true]> f)
           \/ (name = hd [] (profile_candidates env)
               /\ (forall name', In name' (profile_candidates env) ->
                                 f !! Join home name' = None)
               /\ exists data,
                    (data = [] \/ data = profile_block profile_line)
                    /\ ensure_effect env f
                       = <[Join home name := File data true true]> f)).
Proof.
  unfold ensure_effect.
  destruct (UserHomeDir env) as [home|err] eqn:Hh; [|now left]. cbv zeta.
  destruct (find (satisfied home f) _) as [?|] eqn:Es; [now left|].
  destruct (find (present home f) _) as [name|] eqn:Ep.
  - apply find_some in Ep as [Hin Hp]. unfold open_effect, append_effect.
    destruct (f !! Join home name) as [[|content r []]|] eqn:El;
      simpl; try now left.
    rewrite El. destruct (write_ok env (Join home name)); [|now left].
    right. exists home, name. repeat split; try assumption.
    left. now exists content, r.
  - assert (Habs : forall name, In name (profile_candidates env) ->
                                f !! Join home name = None).
    { intros name Hin. pose proof (find_none _ _ Ep _ Hin) as Hp.
      unfold present in Hp. now destruct (f !! Join home name). }
    pose proof (candidates_head env) as Hhd.
    set (p0 := Join home (hd [] (profile_candidates env))).
    unfold open_effect, append_effect. fold p0.
    rewrite (Habs _ Hhd : f !! p0 = None). simpl.
    destruct (may_create env p0); [|now left].
    rewrite lookup_insert_eq.
    right. exists home, (hd [] (profile_candidates env)).
    repeat split; try assumption. right. repeat split; try assumption.
    destruct (write_ok env p0).
    + exists (profile_block profile_line). split; [now right|].
      fold p0. now rewrite insert_insert_eq.
    + exists []. split; [now left | reflexivity].
Qed.

(** X13: [ensureUserPath] never truncates or rewrites: the file system
    after the call is the one before it, or differs from it at exactly one
    path, a candidate profile, which either was a file that can be written
    and has the block appended to its old content, or did not exist, as no
    candidate did, and is the first candidate, created empty or holding
    the block. *)
Theorem ensureUserPath_appends_only (env : Env) (w : World) :
  let before := fs w in
  let after := fs (ensureUserPath env w).2 in
  after = before
  \/ exists home name,
       UserHomeDir env = inl home /\ In name (profile_candidates env)
       /\ ((exists content r,
              before !! Join home name = Some (File content r true)
              /\ after
                 = <[Join home name
                     := File (content ++ profile_block profile_line) r true]>
                     before)
           \/ (name = hd [] (profile_candidates env)
               /\ (forall name', In name' (profile_candidates env) ->
                                 before !! Join home name' = None)
               /\ (after = <[Join home name := File [] true true]> before
                   \/ after
                      = <[Join home name
                          := File (profile_block profile_line) true true]>
                          before))).
Proof.
  cbv zeta. rewrite ensureUserPath_fs.
  destruct (ensure_effect_shape env (fs w))
    as [->|(home & name & Hh & Hin & H)]; [now left|].
  right. exists home, name. split; [exact Hh|]. split; [exact Hin|].
  destruct H as [(content & r & El & ->)|(Hn & Habs & data & Hd & ->)].
  - left. now exists content, r.
  - right. split; [exact Hn|]. split; [exact Habs|].
    destruct Hd as [->| ->]; [now left | now right].
Qed.

Lemma append_block_success (env : Env) (path : gostring) (w : World) :
  (append_block env path profile_line w).1 = inl None ->
  exists content r wr,
    fs w !! path = Some (File content r wr)
    /\ fs (append_block env path profile_line w).2 !! path
       = Some (File (content ++ profile_block profile_line) r wr).
Proof.
  unfold append_block, Write, log. run_proc.
  destruct (fs w !! path) as [[|content r wr]|]; simpl; try discriminate.
  destruct (write_ok env path); simpl; [|discriminate].
  intros _. exists content, r, wr. split; [reflexivity | apply lookup_insert_eq].
Qed.

(** X14: When [ensureUserPath] reports success, some candidate profile is a
    file that holds the line. *)
Theorem ensureUserPath_success_postcondition (env : Env) (w : World) :
  (ensureUserPath env w).1 = inl None ->
  exists home name data r wr,
    UserHomeDir env = inl home /\ In name (profile_candidates env)
    /\ fs (ensureUserPath env w).2 !! Join home name = Some (File data r wr)
    /\ containsProfileLine data profile_line = true.
Proof.
  unfold ensureUserPath.
  destruct (UserHomeDir env) as [home|err] eqn:Hh; [|discriminate]. cbv zeta.
  rewrite (bind_run _ _ _ _ _ (scan_profiles_find home _ w)).
  destruct (find (satisfied home (fs w)) _) as [name|] eqn:Es; cbn [option_map].
  - intros _. apply find_some in Es as [Hin Hs]. unfold satisfied in Hs.
    destruct (fs w !! Join home name) as [[|data [] wr]|] eqn:El; try discriminate.
    exists home, name, data, true, wr. repeat split; assumption.
  - rewrite (bind_run _ _ _ _ _ (first_existing_find home _ w)).
    assert (Hopen : forall create name, In name (profile_candidates env) ->
      (exists a : World,
         (r ← OpenFile env create (Join home name);
          match r with
          | Some err => mret (Some err)
          | None => append_block env (Join home name) profile_line
          end) w = append_block env (Join home name) profile_line a)
      \/ (exists err,
            (r ← OpenFile env create (Join home name);
             match r with
             | Some err => mret (Some err)
             | None => append_block env (Join home name) profile_line
             end) w = (inl (Some err), w))).
    { intros create name Hin.
      pose proof (OpenFile_fs env create (Join home name) w) as H.
      destruct (open_effect env create (Join home name) (fs w)) as [f'|].
      - left. eexists. now rewrite (bind_run _ _ _ _ _ H).
      - right. destruct H as [err H]. exists err.
        now rewrite (bind_run _ _ _ _ _ H). }
    assert (Hgoal : forall create name, In name (profile_candidates env) ->
      ((r ← OpenFile env create (Join home name);
        match r with
        | Some err => mret (Some err)
        | None => append_block env (Join home name) profile_line
        end) w).1 = inl None ->
      exists home0 name0 data r wr,
        (inl home : gostring + error) = inl home0 /\ In name0 (profile_candidates env)
        /\ fs ((r ← OpenFile env create (Join home name);
                match r with
                | Some err => mret (Some err)
                | None => append_block env (Join home name) profile_line
                end) w).2 !! Join home0 name0 = Some (File data r wr)
        /\ containsProfileLine data profile_line = true).
    { intros create name Hin.
      destruct (Hopen create name Hin) as [[a ->]|[err ->]]; [|discriminate].
      intros Hok. destruct (append_block_success env _ a Hok)
        as (content & r & wr & _ & El).
      exists home, name, (content ++ profile_block profile_line), r, wr.
      repeat split; [exact Hin | exact El | apply block_has_line]. }
    destruct (find (present home (fs w)) _) as [name|] eqn:Ep; cbn [option_map].
    + apply find_some in Ep as [Hin _]. now apply Hgoal.
    + apply Hgoal. apply candidates_head.
Qed.

Lemma ensureUserPath_success_postcondition_witness :
  exists home name data r wr,
    UserHomeDir env_user = inl home /\ In name (profile_candidates env_user)
    /\ fs (ensureUserPath env_user empty_world).2 !! Join home name
       = Some (File data r wr)
    /\ containsProfileLine data profile_line = true.
Proof.
  apply ensureUserPath_success_postcondition. vm_compute. reflexivity.
Defined.

(** ** The download *)

Lemma Create_ok (env : Env) (path : gostring) (w wc : World) :
  Create env path w = (inl None, wc) ->
  exists r, fs wc = <[path := File [] r true]> (fs w)
            /\ PATH wc = PATH w /\ trace wc = trace w.
Proof.
  unfold Create. run_proc.
  destruct (fs w !! path) as [[|c r []]|]; try discriminate.
  - intros [= <-]. now exists r.
  - destruct (may_create env path); [|discriminate].
    intros [= <-]. now exists true.
Qed.

(** X15: A download that succeeds leaves exactly the body of the response in
    the destination file, whatever the file held before, and makes one
    request. *)
Theorem downloadFile_success (env : Env) (url toPath : gostring)
    (w wc : World) (body : gostring) :
  Create env toPath w = (inl None, wc) ->
  valid_url env url = true ->
  http_get env url = inl (200%Z, body) ->
  write_ok env toPath = true ->
  exists r w',
    downloadFile env url toPath w = (inl None, w')
    /\ fs w' !! toPath = Some (File body r true)
    /\ (forall path, path <> toPath -> fs w' !! path = fs w !! path)
    /\ trace w' = trace w ++ [HttpGet url].
Proof.
  intros Hc Hu Hg Hw.
  destruct (Create_ok _ _ _ _ Hc) as (r & Hfs & _ & Ht).
  unfold downloadFile. rewrite (bind_run _ _ _ _ _ Hc), Hu. cbn [negb].
  unfold Write. run_proc. rewrite Hg. simpl.
  rewrite Hfs, lookup_insert_eq, Hw. simpl.
  eexists; eexists. split; [reflexivity|]. simpl.
  rewrite lookup_insert_eq, Ht. repeat split.
  intros path Hne. now rewrite !lookup_insert_ne by congruence.
Qed.

Lemma downloadFile_success_witness :
  exists r w',
    downloadFile env_with_go archive_url archive_path empty_world = (inl None, w')
    /\ fs w' !! archive_path = Some (File "archive bytes" r true).
Proof.
  destruct (downloadFile_success env_with_go archive_url archive_path
              empty_world
              (mkWorld {[ archive_path := File [] true true ]} "/usr/bin" [])
              "archive bytes" eq_refl eq_refl eq_refl eq_refl)
    as (r & w' & H1 & H2 & _).
  exists r, w'. split; assumption.
Defined.

(** X16: When the destination cannot be created, [downloadFile] returns that
    error without sending a request and without changing anything. *)
Theorem downloadFile_needs_destination (env : Env) (url toPath : gostring)
    (w : World) (err : error) :
  (Create env toPath w).1 = inl (Some err) ->
  downloadFile env url toPath w = (inl (Some err), w).
Proof.
  intros H.
  assert (Hc : Create env toPath w = (inl (Some err), w)).
  { unfold Create in *. revert H. run_proc.
    destruct (fs w !! toPath) as [[|c r []]|]; simpl; try congruence.
    destruct (may_create env toPath); simpl; congruence. }
  unfold downloadFile. now rewrite (bind_run _ _ _ _ _ Hc).
Qed.

Lemma downloadFile_needs_destination_witness :
  downloadFile env_linux archive_url "/tmp"
    (mkWorld {[ ("/tmp" : gostring) := Dir ]} "/usr/bin" [])
  = (inl (Some (ErrSys "open" "/tmp")),
     mkWorld {[ ("/tmp" : gostring) := Dir ]} "/usr/bin" []).
Proof. apply downloadFile_needs_destination. reflexivity. Defined.

(** ** SystemPathInstaller *)

(** X17: Once the staged content is written, every way out of
    [ensureSystemPath] has removed the temporary file: after a successful
    install, after a successful fallback and after both have failed. *)
Theorem ensureSystemPath_staging_removed (env : Env) (w : World)
    (tmpPath : gostring) :
  temp_name env (staging_pattern env) = Some tmpPath ->
  write_ok env tmpPath = true ->
  fs (ensureSystemPath env w).2 !! tmpPath = None.
Proof. exact (ensureSystemPath_removes_staging_file env w tmpPath). Qed.

Lemma ensureSystemPath_staging_removed_witness :
  fs (ensureSystemPath env_linux empty_world).2
    !! ("/tmp/golang-path-1" : gostring) = None.
Proof. apply ensureSystemPath_staging_removed; reflexivity. Defined.

Section Returns.

Lemma returns_ret {A} (a : A) : returns (mret a).
Proof. intros w. now exists a, w. Qed.

Lemma returns_bind {A B} (c : Proc A) (k : A -> Proc B) :
  returns c -> (forall a, returns (k a)) -> returns (c ≫= k).
Proof.
  intros Hc Hk w. destruct (Hc w) as (a & w1 & E).
  destruct (Hk a w1) as (b & w2 & E2). exists b, w2.
  now rewrite (bind_run _ _ _ _ _ E).
Qed.

Lemma returns_get_fs : returns get_fs.
Proof. intros w. eexists; eexists; reflexivity. Qed.

Lemma returns_set_fs (f : gmap gostring node) : returns (set_fs f).
Proof. intros w. eexists; eexists; reflexivity. Qed.

Lemma returns_emit (e : event) : returns (emit e).
Proof. intros w. eexists; eexists; reflexivity. Qed.

Lemma returns_pure {A} (c : Proc A) :
  (forall w, exists a, c w = (inl a, w)) -> returns c.
Proof. intros H w. destruct (H w) as [a E]. now exists a, w. Qed.

End Returns.

Ltac returns_steps :=
  repeat first
    [ apply returns_ret | apply returns_get_fs | apply returns_set_fs
    | apply returns_emit
    | apply returns_bind; [|intros ?]
    | match goal with
      | |- returns (match ?x with _ => _ end) => destruct x
      | |- returns (if ?x then _ else _) => destruct x
      | |- returns (let '(_, _) := ?x in _) => destruct x
      end ].

Ltac quiet_steps :=
  repeat first
    [ apply quiet_ret | apply quiet_get_fs | apply quiet_set_fs
    | apply quiet_exit
    | apply quiet_bind; [|intros ?]
    | match goal with
      | |- quiet _ (match ?x with _ => _ end) => destruct x
      | |- quiet _ (if ?x then _ else _) => destruct x
      | |- quiet _ (let '(_, _) := ?x in _) => destruct x
      end ].

Section Operations.

Context (P : event -> Prop) (env : Env).

Lemma quiet_pure {A} (c : Proc A) :
  (forall w, exists r, c w = (r, w)) -> quiet P c.
Proof.
  intros H w w' r E. destruct (H w) as [r' E']. rewrite E' in E.
  injection E as _ <-. split; [reflexivity|]. exists [].
  now rewrite app_nil_r.
Qed.

Lemma quiet_Stat (path : gostring) : quiet P (Stat path).
Proof. unfold Stat. quiet_steps. Qed.

Lemma quiet_Create (path : gostring) : quiet P (Create env path).
Proof. unfold Create. quiet_steps. Qed.

Lemma quiet_OpenFile (create : bool) (path : gostring) :
  quiet P (OpenFile env create path).
Proof. unfold OpenFile. quiet_steps. Qed.

Lemma quiet_Write (path data : gostring) : quiet P (Write env path data).
Proof. unfold Write. quiet_steps. Qed.

Lemma quiet_CreateTemp (pattern : gostring) : quiet P (CreateTemp env pattern).
Proof. unfold CreateTemp. quiet_steps. Qed.

Lemma quiet_Remove (path : gostring) : quiet P (Remove path).
Proof. unfold Remove. quiet_steps. Qed.

Lemma quiet_Run (argv : list gostring) :
  P (Exec argv) -> quiet P (Run env argv).
Proof.
  intros H. unfold Run. apply quiet_bind; [apply quiet_get_fs|]. intros f.
  apply quiet_bind; [now apply quiet_emit|]. intros _. quiet_steps.
Qed.

Lemma quiet_CombinedOutput (argv : list gostring) :
  P (Exec argv) -> quiet P (CombinedOutput env argv).
Proof.
  intros H. unfold CombinedOutput.
  apply quiet_bind; [apply quiet_get_fs|]. intros f.
  apply quiet_bind; [now apply quiet_emit|]. intros _. quiet_steps.
Qed.

Lemma quiet_runAsRoot (C : list gostring -> Prop) (cmd : gostring)
    (args : list gostring) :
  (forall argv, as_root C argv -> P (Exec argv)) ->
  C (cmd :: args) -> quiet P (runAsRoot env cmd args).
Proof.
  intros HP HC. unfold runAsRoot. destruct (isRoot env).
  - apply quiet_Run, HP. now left.
  - destruct (LookPath env "sudo"); [|apply quiet_ret].
    apply quiet_bind; [apply quiet_Run, HP; right; now left|]. intros _.
    apply quiet_Run, HP. right; right. now eexists.
Qed.

Lemma returns_Run (argv : list gostring) : returns (Run env argv).
Proof. unfold Run. returns_steps. Qed.

Lemma returns_runAsRoot (cmd : gostring) (args : list gostring) :
  returns (runAsRoot env cmd args).
Proof. intros w. apply runAsRoot_returns. Qed.

Lemma returns_Write (path data : gostring) : returns (Write env path data).
Proof. unfold Write. returns_steps. Qed.

Lemma returns_OpenFile (create : bool) (path : gostring) :
  returns (OpenFile env create path).
Proof. unfold OpenFile. returns_steps. Qed.

Lemma returns_ensureSystemPath : returns (ensureSystemPath env).
Proof.
  unfold ensureSystemPath, CreateTemp, Remove, log.
  destruct (eqb (GOOS env) "darwin");
    repeat first
      [ apply returns_runAsRoot | apply returns_Write
      | apply returns_ret | apply returns_get_fs | apply returns_set_fs
      | apply returns_emit
      | apply returns_bind; [|intros ?]
      | match goal with
        | |- returns (match ?x with _ => _ end) => destruct x
        end ].
Qed.

Lemma quiet_ensureSystemPath :
  (forall t, P (Stdout t)) ->
  (forall argv, as_root system_path_command argv -> P (Exec argv)) ->
  quiet P (ensureSystemPath env).
Proof.
  intros Hout Hexec.
  assert (Hinstall : forall tmpPath dest : gostring,
             In dest ["/etc/paths.d/go" : gostring;
                      "/etc/profile.d/golang-path.sh" : gostring] ->
             quiet P (runAsRoot env "install"
                        ["-m" : gostring; "0644" : gostring; tmpPath; dest])).
  { intros tmpPath dest Hd.
    apply (quiet_runAsRoot system_path_command); [exact Hexec|].
    left. now exists tmpPath, dest. }
  assert (Hsh : forall script : gostring,
             quiet P (runAsRoot env "sh" ["-c" : gostring; script])).
  { intros script.
    apply (quiet_runAsRoot system_path_command); [exact Hexec|].
    right. now exists script. }
  unfold ensureSystemPath.
  destruct (eqb (GOOS env) "darwin").
  - apply quiet_bind; [apply quiet_CreateTemp|]. intros [tmpPath|err];
      [|apply quiet_ret].
    apply quiet_bind; [apply quiet_Write|]. intros [err|]; [apply quiet_ret|].
    apply quiet_bind; [apply Hinstall; now left|]. intros [err|].
    + apply quiet_bind; [apply Hsh|]. intros [err'|].
      * apply quiet_bind; [apply quiet_Remove | intros; apply quiet_ret].
      * apply quiet_bind; [apply quiet_Remove|]. intros _.
        apply quiet_bind; [now apply quiet_log | intros; apply quiet_ret].
    + apply quiet_bind; [apply quiet_Remove|]. intros _.
      apply quiet_bind; [now apply quiet_log | intros; apply quiet_ret].
  - apply quiet_bind; [apply quiet_CreateTemp|]. intros [tmpPath|err];
      [|apply quiet_ret].
    apply quiet_bind; [apply quiet_Write|]. intros [err|]; [apply quiet_ret|].
    apply quiet_bind; [apply Hinstall; right; now left|]. intros [err|].
    + apply quiet_bind; [apply Hsh|]. intros [err'|].
      * apply quiet_bind; [apply quiet_Remove | intros; apply quiet_ret].
      * apply quiet_bind; [apply quiet_Remove|]. intros _.
        apply quiet_bind; [now apply quiet_log | intros; apply quiet_ret].
    + apply quiet_bind; [apply quiet_Remove|]. intros _.
      apply quiet_bind; [now apply quiet_log | intros; apply quiet_ret].
Qed.

Lemma quiet_append_block (path : gostring) :
  (forall t, P (Stdout t)) -> quiet P (append_block env path profile_line).
Proof.
  intros Hout. unfold append_block.
  apply quiet_bind; [apply quiet_Write|]. intros [err|]; [apply quiet_ret|].
  apply quiet_bind; [now apply quiet_log | intros; apply quiet_ret].
Qed.

Lemma returns_append_block (path : gostring) :
  returns (append_block env path profile_line).
Proof.
  unfold append_block, log.
  apply returns_bind; [apply returns_Write|]. intros [err|]; returns_steps.
Qed.

Lemma quiet_ensureUserPath :
  (forall t, P (Stdout t)) -> quiet P (ensureUserPath env).
Proof.
  intros Hout. unfold ensureUserPath.
  destruct (UserHomeDir env) as [home|err]; [|apply quiet_ret]. cbv zeta.
  apply quiet_bind.
  { apply quiet_pure. intros w. eexists. apply scan_profiles_find. }
  intros [path|].
  { apply quiet_bind; [now apply quiet_log | intros; apply quiet_ret]. }
  apply quiet_bind.
  { apply quiet_pure. intros w. eexists. apply first_existing_find. }
  intros [path|].
  - apply quiet_bind; [apply quiet_OpenFile|]. intros [err|];
      [apply quiet_ret | now apply quiet_append_block].
  - apply quiet_bind; [apply quiet_OpenFile|]. intros [err|];
      [apply quiet_ret | now apply quiet_append_block].
Qed.

Lemma returns_ensureUserPath : returns (ensureUserPath env).
Proof.
  unfold ensureUserPath.
  destruct (UserHomeDir env) as [home|err]; [|apply returns_ret]. cbv zeta.
  apply returns_bind.
  { apply returns_pure. intros w. eexists. apply scan_profiles_find. }
  intros [path|].
  { unfold log. returns_steps. }
  apply returns_bind.
  { apply returns_pure. intros w. eexists. apply first_existing_find. }
  intros [path|].
  - apply returns_bind; [apply returns_OpenFile|]. intros [err|];
      [apply returns_ret | apply returns_append_block].
  - apply returns_bind; [apply returns_OpenFile|]. intros [err|];
      [apply returns_ret | apply returns_append_block].
Qed.

Lemma quiet_downloadFile (url toPath : gostring) :
  P (HttpGet url) -> quiet P (downloadFile env url toPath).
Proof.
  intros H. unfold downloadFile.
  apply quiet_bind; [apply quiet_Create|]. intros [err|]; [apply quiet_ret|].
  destruct (negb (valid_url env url)); [apply quiet_ret|].
  apply quiet_bind; [now apply quiet_emit|]. intros _.
  destruct (http_get env url) as [[status body]|err]; [|apply quiet_ret].
  destruct (negb (status =? 200)%Z); [apply quiet_ret | apply quiet_Write].
Qed.

Lemma quiet_main_archive (p : Plan) :
  (forall t, P (Stdout t)) -> (forall c e, P (Stderr c e)) ->
  P (HttpGet (url p)) -> quiet P (main_archive env p).
Proof.
  intros Hout Herr Hget. unfold main_archive.
  apply quiet_bind; [apply quiet_Stat|]. intros [n|err].
  - now apply quiet_log.
  - apply quiet_bind; [now apply quiet_downloadFile|]. intros r.
    apply quiet_bind; [now apply quiet_must|]. intros _. now apply quiet_log.
Qed.

Lemma emits_quiet {A} (c : Proc A) : quiet P c -> emits P c.
Proof. intros H w w' r E. now destruct (H _ _ _ E). Qed.

Lemma emits_bind {A B} (c : Proc A) (k : A -> Proc B) :
  emits P c -> (forall a, emits P (k a)) -> emits P (c ≫= k).
Proof.
  intros Hc Hk w w' r E. unfold mbind, proc_bind in E.
  destruct (c w) as [[a|code] w1] eqn:Ec.
  - destruct (Hc _ _ _ Ec) as (e1 & Ht1 & H1).
    destruct (Hk _ _ _ _ E) as (e2 & Ht2 & H2).
    exists (e1 ++ e2).
    split; [rewrite Ht2, Ht1; now rewrite app_assoc | now apply Forall_app].
  - injection E as <- <-. eapply Hc; eauto.
Qed.

Lemma emits_append_PATH (dir : gostring) :
  (forall value, P (Setenv "PATH" value)) -> emits P (append_PATH dir).
Proof.
  intros H w w' r [= _ <-]. eexists. split; [reflexivity|].
  constructor; [apply H | constructor].
Qed.

(** The installation step after the PATH update. *)
Lemma quiet_verify (p : Plan) :
  (forall t, P (Stdout t)) -> (forall c e, P (Stderr c e)) ->
  (forall bin : gostring, P (Exec [bin; "version" : gostring])) ->
  quiet P
    ('(out, err) ← CombinedOutput env [stdGo; "version" : gostring];
     must err ("verify: running '/usr/local/go/bin/go version'" ++ [nl]
               ++ "Output: " ++ out);;
     emit (Stdout out);;
     (if negb (Contains out (version p)) then
        warn ("Installed Go reported '" ++ TrimSpace out
              ++ "' which does not contain expected version '" ++ version p ++ "'")
      else mret tt);;
     log ("Go " ++ version p ++ " installed successfully.");;
     log "Note: You may need to start a new shell session for PATH changes to take effect, or run: 'source ~/.profile' (Linux) or 'source ~/.zprofile' (macOS)").
Proof.
  intros Hout Herr Hprobe.
  apply quiet_bind; [now apply quiet_CombinedOutput|]. intros [out err].
  apply quiet_bind; [now apply quiet_must|]. intros _.
  apply quiet_bind; [now apply quiet_emit|]. intros _.
  apply quiet_bind.
  { destruct (negb _); [now apply quiet_emit | apply quiet_ret]. }
  intros _.
  apply quiet_bind; [now apply quiet_log|]. intros _. now apply quiet_log.
Qed.

Lemma emits_main_install (flags : Flags) (p : Plan) :
  (forall t, P (Stdout t)) -> (forall t e, P (StdoutErr t e)) ->
  (forall c e, P (Stderr c e)) ->
  (forall bin : gostring, P (Exec [bin; "version" : gostring])) ->
  (forall argv, as_root install_command argv -> P (Exec argv)) ->
  (noPathUpdate flags = false -> forall value, P (Setenv "PATH" value)) ->
  emits P (main_install env flags p).
Proof.
  intros Hout Hwarn Herr Hprobe Hexec Hset.
  assert (Hsys : forall argv, as_root system_path_command argv -> P (Exec argv)).
  { intros argv [H|[H|(rest & -> & H)]]; apply Hexec.
    - left. right; now right.
    - right; now left.
    - right; right. exists rest. split; [reflexivity|]. right; now right. }
  unfold main_install.
  apply emits_bind.
  { apply emits_quiet, (quiet_runAsRoot install_command); [exact Hexec|].
    now left. }
  intros r. apply emits_bind; [now apply emits_quiet, quiet_must|]. intros _.
  apply emits_bind.
  { apply emits_quiet, (quiet_runAsRoot install_command); [exact Hexec|].
    right; left. now eexists. }
  intros r'. apply emits_bind; [now apply emits_quiet, quiet_must|]. intros _.
  apply emits_bind; [now apply emits_quiet, quiet_log|]. intros _.
  apply emits_bind; [|intros _; now apply emits_quiet, quiet_verify].
  destruct (noPathUpdate flags); cbn [negb];
    [apply emits_quiet, quiet_ret|].
  apply emits_bind; [now apply emits_quiet, quiet_ensureUserPath|]. intros r2.
  apply emits_bind; [now apply emits_quiet, quiet_must|]. intros _.
  apply emits_bind; [|intros _; apply emits_append_PATH; now apply Hset].
  destruct (systemPathFlag flags); [|apply emits_quiet, quiet_ret].
  apply emits_bind; [now apply emits_quiet, quiet_ensureSystemPath|].
  intros [err|]; [|apply emits_quiet, quiet_ret].
  apply emits_quiet. unfold warn_err. now apply quiet_emit.
Qed.

Lemma quiet_main_install_no_update (flags : Flags) (p : Plan) :
  (forall t, P (Stdout t)) -> (forall c e, P (Stderr c e)) ->
  (forall bin : gostring, P (Exec [bin; "version" : gostring])) ->
  (forall argv, as_root install_command argv -> P (Exec argv)) ->
  noPathUpdate flags = true ->
  quiet P (main_install env flags p).
Proof.
  intros Hout Herr Hprobe Hexec Hno. unfold main_install. rewrite Hno.
  cbn [negb].
  apply quiet_bind.
  { apply (quiet_runAsRoot install_command); [exact Hexec | now left]. }
  intros r. apply quiet_bind; [now apply quiet_must|]. intros _.
  apply quiet_bind.
  { apply (quiet_runAsRoot install_command); [exact Hexec|].
    right; left. now eexists. }
  intros r'. apply quiet_bind; [now apply quiet_must|]. intros _.
  apply quiet_bind; [now apply quiet_log|]. intros _.
  apply quiet_bind; [apply quiet_ret|]. intros _. now apply quiet_verify.
Qed.

End Operations.

(** ** What the path updates are confined to *)

(** X18: [ensureUserPath] never ends the process, leaves PATH alone, runs no
    command and sends no request: all it emits is messages on standard
    output. *)
Theorem ensureUserPath_contained (env : Env) (w : World) :
  exists r w' evs,
    ensureUserPath env w = (inl r, w')
    /\ PATH w' = PATH w
    /\ trace w' = trace w ++ evs /\ Forall is_stdout evs.
Proof.
  destruct (returns_ensureUserPath env w) as (r & w' & E).
  assert (Hq : quiet is_stdout (ensureUserPath env)).
  { apply quiet_ensureUserPath. intros t. now exists t. }
  destruct (Hq _ _ _ E) as (Hp & evs & Ht & He).
  now exists r, w', evs.
Qed.

(** X19: [ensureSystemPath] never ends the process, leaves PATH alone and
    sends no request; the only commands it runs are the install of a
    staged file at /etc/paths.d/go or /etc/profile.d/golang-path.sh and
    [sh -c], as they are or behind sudo. *)
Theorem ensureSystemPath_contained (env : Env) (w : World) :
  exists r w' evs,
    ensureSystemPath env w = (inl r, w')
    /\ PATH w' = PATH w
    /\ trace w' = trace w ++ evs /\ Forall system_path_event evs.
Proof.
  destruct (returns_ensureSystemPath env w) as (r & w' & E).
  assert (Hq : quiet system_path_event (ensureSystemPath env)).
  { apply quiet_ensureSystemPath; [easy|]. intros argv H. exact H. }
  destruct (Hq _ _ _ E) as (Hp & evs & Ht & He).
  now exists r, w', evs.
Qed.

(** ** The archive step *)

Lemma downloadFile_ok_inv (env : Env) (url toPath : gostring) (w w' : World) :
  downloadFile env url toPath w = (inl None, w') ->
  exists body r,
    http_get env url = inl (200%Z, body)
    /\ fs w' !! toPath = Some (File body r true)
    /\ trace w' = trace w ++ [HttpGet url].
Proof.
  intros H. unfold downloadFile in H.
  destruct (Create env toPath w) as [[[err|]|code] wc] eqn:Hc.
  - rewrite (bind_run _ _ _ _ _ Hc) in H. discriminate.
  - destruct (Create_ok _ _ _ _ Hc) as (r & Hfs & _ & Ht).
    rewrite (bind_run _ _ _ _ _ Hc) in H.
    destruct (valid_url env url); cbn [negb] in H; [|discriminate].
    revert H. unfold Write. run_proc.
    destruct (http_get env url) as [[status body]|err]; [|discriminate].
    destruct (Z.eqb_spec status 200) as [->|]; simpl; [|discriminate].
    rewrite Hfs, lookup_insert_eq.
    destruct (write_ok env toPath); simpl; [|discriminate].
    intros [= <-]. exists body, r. simpl. rewrite lookup_insert_eq, Ht.
    repeat split.
  - rewrite (bind_exit _ _ _ _ _ Hc) in H. discriminate.
Qed.

(** X20: The installation step is reached only with the archive on disk:
    either it was there and nothing was requested or changed, or it was
    absent, the download answered 200 and the file holds exactly the body
    of that answer. *)
Theorem main_archive_postcondition (env : Env) (p : Plan) (w w' : World) :
  main_archive env p w = (inl tt, w') ->
  (exists n, fs w !! tarPath p = Some n /\ fs w' = fs w
             /\ network_calls (trace w') = network_calls (trace w))
  \/ (fs w !! tarPath p = None
      /\ exists body r,
           http_get env (url p) = inl (200%Z, body)
           /\ fs w' !! tarPath p = Some (File body r true)
           /\ network_calls (trace w')
              = network_calls (trace w) ++ [url p]).
Proof.
  destruct (fs w !! tarPath p) as [n|] eqn:El.
  - rewrite (main_archive_existing env p w n El). intros [= <-].
    left. exists n. repeat split. simpl.
    rewrite network_calls_app. simpl. now rewrite app_nil_r.
  - intros H. right. split; [reflexivity|].
    unfold main_archive in H.
    assert (Hs : Stat (tarPath p) w = (inl (inr (ErrSys "stat" (tarPath p))), w)).
    { unfold Stat. run_proc. now rewrite El. }
    rewrite (bind_run _ _ _ _ _ Hs) in H.
    destruct (downloadFile env (url p) (tarPath p) w) as [[[err|]|code] w1] eqn:Ed.
    + rewrite (bind_run _ _ _ _ _ Ed) in H. revert H. unfold must, log.
      run_proc. discriminate.
    + destruct (downloadFile_ok_inv _ _ _ _ _ Ed) as (body & r & Hg & Hl & Ht).
      rewrite (bind_run _ _ _ _ _ Ed) in H. revert H. unfold must, log.
      run_proc. intros [= <-]. exists body, r. simpl.
      repeat split; [exact Hg | exact Hl |].
      rewrite Ht, !network_calls_app. simpl. now rewrite app_nil_r.
    + rewrite (bind_exit _ _ _ _ _ Ed) in H. discriminate.
Qed.

Lemma main_archive_postcondition_witness :
  exists body r,
    fs (main_archive env_with_go
          (mkPlan "go1.26.0" "linux" "amd64" archive_url archive_path)
          empty_world).2 !! archive_path
    = Some (File body r true).
Proof.
  destruct (main_archive_postcondition env_with_go
              (mkPlan "go1.26.0" "linux" "amd64" archive_url archive_path)
              empty_world
              (main_archive env_with_go
                 (mkPlan "go1.26.0" "linux" "amd64" archive_url archive_path)
                 empty_world).2)
    as [(n & H & _)|(_ & body & r & _ & H & _)].
  - vm_compute. reflexivity.
  - vm_compute in H. discriminate.
  - now exists body, r.
Defined.

(** ** The whole run *)

Lemma main_event_of_dry_run (e : event) : dry_run_event e -> main_event e.
Proof.
  destruct e; simpl; try tauto.
Qed.

Lemma main_emits (P : event -> Prop) (env : Env) (flags : Flags) :
  (forall e, dry_run_event e -> P e) ->
  (forall t e, P (StdoutErr t e)) ->
  (forall name, P (HttpGet ("https://go.dev/dl/" ++ name))) ->
  (forall argv, as_root install_command argv -> P (Exec argv)) ->
  (noPathUpdate flags = false -> forall value, P (Setenv "PATH" value)) ->
  emits P (main env flags).
Proof.
  intros Hdry Hwarn Hget Hexec Hset.
  assert (Hout : forall t, P (Stdout t)) by (intros; now apply Hdry).
  assert (Herr : forall c e, P (Stderr c e)) by (intros; now apply Hdry).
  assert (Hprobe : forall bin : gostring, P (Exec [bin; "version" : gostring])).
  { intros bin. apply Hdry. now exists bin. }
  intros w w' r E. unfold main in E.
  destruct (main_plan env flags w) as [[p|code] w1] eqn:Ep.
  - destruct (quiet_main_plan env flags _ _ _ Ep) as (_ & e1 & Ht1 & H1).
    destruct (main_plan_result _ _ _ _ _ Ep) as (_ & Hurl & _).
    rewrite (bind_run _ _ _ _ _ Ep) in E.
    assert (Hrest : emits P
              (if dryRunFlag flags
               then printPlan (version p) (goos p) (goarch p) (url p)
                      (tarPath p) (noPathUpdate flags) (systemPathFlag flags)
               else main_archive env p;; main_install env flags p)).
    { destruct (dryRunFlag flags).
      - apply emits_quiet. eapply quiet_weaken; [exact Hdry|].
        apply quiet_printPlan.
      - apply emits_bind.
        + apply emits_quiet, quiet_main_archive; auto.
          rewrite Hurl. apply Hget.
        + intros _. now apply emits_main_install. }
    destruct (Hrest _ _ _ E) as (e2 & Ht2 & H2).
    exists (e1 ++ e2). split; [rewrite Ht2, Ht1; now rewrite app_assoc|].
    apply Forall_app. split; [|exact H2].
    eapply List.Forall_impl; [|exact H1]. exact Hdry.
  - destruct (quiet_main_plan env flags _ _ _ Ep) as (_ & e1 & Ht1 & H1).
    rewrite (bind_exit _ _ _ _ _ Ep) in E. injection E as _ <-.
    exists e1. split; [exact Ht1|].
    eapply List.Forall_impl; [|exact H1]. exact Hdry.
Qed.

(** X21: Whatever the machine answers, a run of [main] requests nothing but
    the latest-version page and an archive under https://go.dev/dl/; runs
    no command but the version probe, [rm -rf /usr/local/go], the
    extraction into /usr/local and the two commands of the system-wide
    PATH update, as they are or behind sudo; and sets no variable but
    PATH. *)
Theorem main_confined (env : Env) (flags : Flags) (w : World) :
  exists evs,
    trace (main env flags w).2 = trace w ++ evs /\ Forall main_event evs.
Proof.
  destruct (main env flags w) as [r w'] eqn:E.
  apply (main_emits main_event env flags) with (r := r); auto.
  - apply main_event_of_dry_run.
  - intros t e. exact I.
  - intros name. right. now exists name.
  - intros argv H. now right.
  - intros _ value. reflexivity.
Qed.

(** X22: With --no-path-update a run sets no environment variable: PATH is as
    before. *)
Theorem main_no_path_update (env : Env) (flags : Flags) (w : World) :
  noPathUpdate flags = true ->
  PATH (main env flags w).2 = PATH w
  /\ exists evs,
       trace (main env flags w).2 = trace w ++ evs
       /\ Forall sets_no_variable evs.
Proof.
  intros Hno. split.
  - unfold main.
    destruct (main_plan env flags w) as [[p|code] w1] eqn:Ep.
    + destruct (quiet_main_plan env flags _ _ _ Ep) as (Hp1 & _).
      rewrite (bind_run _ _ _ _ _ Ep).
      assert (Hq : quiet (fun _ => True)
                (if dryRunFlag flags
                 then printPlan (version p) (goos p) (goarch p) (url p)
                        (tarPath p) (noPathUpdate flags) (systemPathFlag flags)
                 else main_archive env p;; main_install env flags p)).
      { destruct (dryRunFlag flags).
        - eapply quiet_weaken; [|apply quiet_printPlan]. auto.
        - apply quiet_bind; [now apply quiet_main_archive|]. intros _.
          now apply quiet_main_install_no_update. }
      match goal with
      | |- PATH (?c w1).2 = _ => destruct (c w1) as [r w'] eqn:E
      end.
      destruct (Hq _ _ _ E) as (Hp2 & _). simpl. congruence.
    + destruct (quiet_main_plan env flags _ _ _ Ep) as (Hp1 & _).
      now rewrite (bind_exit _ _ _ _ _ Ep).
  - destruct (main env flags w) as [r w'] eqn:E.
    apply (main_emits sets_no_variable env flags) with (r := r); auto.
    + intros e He. destruct e; simpl in *; tauto.
    + intros t e. exact I.
    + intros name. right. now exists name.
    + intros argv H. now right.
    + rewrite Hno. discriminate.
Qed.

Lemma main_no_path_update_witness :
  PATH (main env_linux flags_no_path_update empty_world).2 = PATH empty_world.
Proof.
  destruct (main_no_path_update env_linux flags_no_path_update empty_world)
    as [H _].
  - reflexivity.
  - exact H.
Defined.

(* ===================================================================== *)
(** * The cases of the test file                                          *)
(* ===================================================================== *)

Example clean_test_1 : cleanVersionInput "go1.25.1" = "go1.25.1".
Proof. reflexivity. Qed.

Example clean_test_2 : cleanVersionInput "1.25.1" = "go1.25.1".
Proof. reflexivity. Qed.

Example clean_test_3 :
  cleanVersionInput "go1.25.1 time 2025-08-27T15:49:40Z" = "go1.25.1".
Proof. reflexivity. Qed.

Example clean_test_4 :
  cleanVersionInput ("go1.25.1" ++ [nl] ++ " time 2025-08-27T15:49:40Z")
  = "go1.25.1".
Proof. reflexivity. Qed.

Example clean_test_5 : cleanVersionInput "   go1.22.6   " = "go1.22.6".
Proof. reflexivity. Qed.

Example clean_test_6 : cleanVersionInput "go1.24beta1" = "go1.24beta1".
Proof. reflexivity. Qed.

Example clean_test_7 : cleanVersionInput "1.24beta1" = "go1.24beta1".
Proof. reflexivity. Qed.

Example clean_test_8 : cleanVersionInput "go1.25.1rc1 extra" = "go1.25.1rc1".
Proof. reflexivity. Qed.

Example clean_test_9 : cleanVersionInput "go1.25.1!" = "go1.25.1".
Proof. reflexivity. Qed.

Example clean_test_10 : cleanVersionInput "go" = "go".
Proof. reflexivity. Qed.

(** An upper-case letter after the prefix cuts the token there. *)
Example clean_upper_case : cleanVersionInput "go1.25RC1" = "go1.25".
Proof. reflexivity. Qed.

(** A no-break space (U+00A0) and an ideographic space (U+3000) are white
    space for [strings.TrimSpace] and [strings.Fields]. *)
Example clean_unicode_space :
  cleanVersionInput (map B [194; 160]%N ++ "1.25.1" ++ map B [227; 128; 128]%N
                     ++ "time")
  = "go1.25.1".
Proof. reflexivity. Qed.

(** A next-line character (U+0085) in front and an em space (U+2003) at
    the end are trimmed. *)
Example trim_unicode_space :
  TrimSpace (map B [194; 133]%N ++ "go1.2" ++ map B [226; 128; 131]%N) = "go1.2".
Proof. reflexivity. Qed.

Example parse_test_typical :
  parseGoVersionOutput "go version go1.22.6 linux/amd64"
  = inl ("go1.22.6" : gostring).
Proof. reflexivity. Qed.

Example parse_test_beta :
  parseGoVersionOutput "go version go1.24beta1 linux/amd64"
  = inl ("go1.24beta1" : gostring).
Proof. reflexivity. Qed.

Example parse_test_windows :
  parseGoVersionOutput "go version go1.22.6 windows/amd64"
  = inl ("go1.22.6" : gostring).
Proof. reflexivity. Qed.

Example parse_test_fallback :
  parseGoVersionOutput "random text go1.20.5 something"
  = inl ("go1.20.5" : gostring).
Proof. reflexivity. Qed.

Example parse_test_garbage :
  parseGoVersionOutput "totally unrelated output"
  = inr (ErrUnableToParse "totally unrelated output").
Proof. reflexivity. Qed.

(** The scan passes over a field that normalises to the bare prefix. *)
Example parse_skips_bare_prefix :
  parseGoVersionOutput "go! go1.2" = inl ("go1.2" : gostring).
Proof. reflexivity. Qed.

Example profile_test_exact :
  containsProfileLine (profile_line ++ [nl]) profile_line = true.
Proof. reflexivity. Qed.

Example profile_test_whitespace :
  containsProfileLine ("  " ++ [B 9] ++ profile_line ++ "  " ++ [nl]) profile_line
  = true.
Proof. reflexivity. Qed.

Example profile_test_alternate_order :
  containsProfileLine ("export PATH=/usr/local/go/bin:$PATH" ++ [nl]) profile_line
  = true.
Proof. reflexivity. Qed.

Example profile_test_multiple_lines :
  containsProfileLine
    ("# comment" ++ [nl] ++ "SOME=VAR" ++ [nl] ++ profile_line ++ [nl])
    profile_line
  = true.
Proof. reflexivity. Qed.

Example profile_test_not_present :
  containsProfileLine
    ("# nothing relevant" ++ [nl] ++ "export PATH=$PATH:/usr/local/bin" ++ [nl])
    profile_line
  = false.
Proof. reflexivity. Qed.

(** A dry run with the PATH update switched off. *)
Example plan_without_path_update :
  trace (printPlan "go1.26.0" "linux" "amd64" archive_url archive_path
           true true empty_world).2
  = map (fun line : gostring => Stdout (line ++ [nl]))
      [ "Plan (dry-run):" : gostring;
        "- Determine version: go1.26.0" : gostring;
        "- Download " ++ archive_url ++ " -> " ++ archive_path;
        "- Remove any previous /usr/local/go" : gostring;
        "- Extract archive into /usr/local" : gostring;
        "- Skip PATH update (per --no-path-update)" : gostring;
        "- Verify with '/usr/local/go/bin/go version'" : gostring ].
Proof. reflexivity. Qed.
